(** * Stellarium plugins: Landscape (Landscape.hpp), Novae (Novae.hpp) and the
      build scripts of CompassMarks and MeteorShowers.

    A shallow embedding of the code of the repository and the properties that
    its description states about it.

    - C++ [double] values are IEEE binary64 values (Rocq's primitive floats);
      C++ [float] values are the binary64 values that are representable in
      binary32, obtained by [to_single].
    - C++ [int] values are integers of [Z]; a conversion whose result does not
      fit is undefined behaviour in C++ and is [None] here.
    - [QString] is [string].
    - Classes are records; a member function is a function from the object
      (and its arguments) to the new object or the result. *)

From Stdlib Require Import ZArith List String Ascii Bool Floats Uint63 Lia.
Import ListNotations.

Local Open Scope Z_scope.

(** ** Numbers as C++ has them *)

Module Cpp.

Definition INT_MIN : Z := - 2 ^ 31.
Definition INT_MAX : Z := 2 ^ 31 - 1.

(** [M_PI] of <cmath>: 3.14159265358979323846 as a double. *)
Definition M_PI : float := 0x1.921fb54442d18p+1%float.

(** Conversion of a double to [float] (round to nearest even, binary32:
    24 bits of precision, maximal exponent 128). *)
Definition to_single (x : float) : float :=
  match Prim2SF x with
  | S754_finite s m e => SF2Prim (binary_round 24 128 s m e)
  | _ => x
  end.

(** A [float] literal [c] written with the suffix f. *)
Definition lit_f (c : float) : float := to_single c.

(** The literal [0.999f]. *)
#[warnings="-inexact-float"]
Definition lit_0_999f : float := lit_f 0.999%float.

(** A double is negative when it is a number below zero: finite and not
    zero, or infinite, with the sign set. *)
Definition is_negative (x : float) : bool :=
  match Prim2SF x with
  | S754_finite true _ _ | S754_infinity true => true
  | _ => false
  end.

(** The integral part of a double (rounding toward zero), when it is a
    number. *)
Definition trunc (x : float) : option Z :=
  match Prim2SF x with
  | S754_zero _ => Some 0
  | S754_finite s m e =>
      let a := if 0 <=? e then Z.pos m * 2 ^ e else Z.shiftr (Z.pos m) (- e) in
      Some (if s then - a else a)
  | S754_infinity _ | S754_nan => None
  end.

(** The cast [(int)x] of a double: defined when the truncated value is
    representable in [int]. *)
Definition double_to_int (x : float) : option Z :=
  match trunc x with
  | Some z => if (INT_MIN <=? z) && (z <=? INT_MAX) then Some z else None
  | None => None
  end.

(** The conversion of an [int] to [double] (exact) and to [float]. *)
Definition int_to_double (z : Z) : float :=
  match z with
  | Z0 => 0%float
  | Z.pos _ => PrimFloat.of_uint63 (Uint63.of_Z z)
  | Z.neg p => (- PrimFloat.of_uint63 (Uint63.of_Z (Z.pos p)))%float
  end.

Definition int_to_float (z : Z) : float := to_single (int_to_double z).

(** Modelled from the spec: VecMath.hpp is not among the sources; [Vec3d] and
    [Vec3f] are vectors of three components, read by index. *)
Record Vec3 : Type := mkVec3 { v_0 : float; v_1 : float; v_2 : float }.

Definition vec_at (v : Vec3) (i : nat) : float :=
  match i with
  | O => v_0 v
  | S O => v_1 v
  | _ => v_2 v
  end.

End Cpp.

(** ** Faders (StelFader.hpp) *)

(** The operations of a fader that Landscape.hpp uses: assignment of a [bool],
    conversion to [bool], [update(int)] and [getInterstate()]. *)
Class FaderOps (F : Type) : Type := {
  fader_assign : F -> bool -> F;
  fader_bool : F -> bool;
  fader_update : F -> Z -> F;
  fader_getInterstate : F -> float
}.

(** What the code of Landscape relies on: a fader converts to the [bool] that
    was last assigned to it. *)
Class FaderLaws (F : Type) `{FaderOps F} : Prop := {
  fader_bool_assign : forall (f : F) (b : bool), fader_bool (fader_assign f b) = b
}.

Module StelFader.

Import Cpp.
Local Open Scope float_scope.

(** Modelled from the spec: the class [LinearFader] of StelFader.hpp is not
    among the sources; Landscape.hpp uses it "to slowly fade in/out landscape
    painting", assigns and reads it as a [bool], advances it by a number of
    milliseconds and compares its interstate with 0.999.  The model is a
    switch with a target state and an interstate value that moves linearly
    from one end value to the other during [duration] milliseconds. *)
Record LinearFader : Type := mkLinearFader {
  state : bool;
  isTransiting : bool;
  duration : Z;
  minValue : float;
  maxValue : float;
  startValue : float;
  targetValue : float;
  counter : Z;
  interstate : float
}.

(** Modelled from the spec: the constructor of the fader, with its duration
    in milliseconds, its two end values and its initial state; the interstate
    value starts at the end value of the state. *)
Definition make (_duration : Z) (_minValue _maxValue : float) (_state : bool)
  : LinearFader :=
  {| state := _state; isTransiting := false; duration := _duration;
     minValue := _minValue; maxValue := _maxValue;
     startValue := _minValue; targetValue := _maxValue; counter := 0%Z;
     interstate := if _state then _maxValue else _minValue |}.

(** Modelled from the spec: a fader of one second between 0 and 1, off. *)
Definition default : LinearFader := make 1000 0 1 false.

(** Modelled from the spec: the assignment of a [bool].  Assigning the state
    that the fader has changes nothing; assigning the other state starts a
    transition toward its end value, or reverses the transition in progress.
    The interstate value moves only in [update]. *)
Definition assign (f : LinearFader) (s : bool) : LinearFader :=
  if isTransiting f then
    if Bool.eqb s (state f) then f
    else
      {| state := s; isTransiting := true; duration := duration f;
         minValue := minValue f; maxValue := maxValue f;
         startValue := targetValue f; targetValue := startValue f;
         counter := (duration f - counter f)%Z; interstate := interstate f |}
  else
    if Bool.eqb (state f) s then f
    else
      {| state := s; isTransiting := true; duration := duration f;
         minValue := minValue f; maxValue := maxValue f;
         startValue := if s then minValue f else maxValue f;
         targetValue := if s then maxValue f else minValue f;
         counter := 0%Z; interstate := interstate f |}.

(** Modelled from the spec: [update] with a number of milliseconds.  A
    transition in progress advances; it ends at the target value when the
    duration has elapsed, and before that the interstate value is
    interpolated linearly, in [float] arithmetic. *)
Definition update (f : LinearFader) (deltaTicks : Z) : LinearFader :=
  if isTransiting f then
    let c := (counter f + deltaTicks)%Z in
    if (duration f <=? c)%Z then
      {| state := state f; isTransiting := false; duration := duration f;
         minValue := minValue f; maxValue := maxValue f;
         startValue := startValue f; targetValue := targetValue f;
         counter := c; interstate := targetValue f |}
    else
      {| state := state f; isTransiting := true; duration := duration f;
         minValue := minValue f; maxValue := maxValue f;
         startValue := startValue f; targetValue := targetValue f;
         counter := c;
         interstate :=
           to_single (startValue f +
             to_single (to_single (to_single (targetValue f - startValue f)
                                   * int_to_float c)
                        / int_to_float (duration f))) |}
  else f.

(** Modelled from the spec: the conversion to [bool] is the state, and
    [getInterstate] the interstate value. *)
#[export] Instance LinearFader_ops : FaderOps LinearFader := {
  fader_assign := assign;
  fader_bool := state;
  fader_update := update;
  fader_getInterstate := interstate
}.

End StelFader.

(** ** Landscape.hpp *)

(** Modelled from the spec: StelLocation.hpp is not among the sources; of a
    [StelLocation] the header reads the [planetName]. *)
Record StelLocation : Type := mkStelLocation { planetName : string }.

Module Landscape.

Import Cpp.

Section Class_Landscape.

(** [F] is the type of the two faders ([LinearFader]), [Region] the type
    of the horizon polygon ([SphericalRegionP]). *)
Context {F : Type} {Region : Type} `{FaderOps F}.

(** The data members of [class Landscape], in the order of the header. *)
Record t : Type := mk {
  radius : float;
  name : string;
  author : string;
  description : string;
  minBrightness : float;
  landscapeBrightness : float;
  lightScapeBrightness : float;
  validLandscape : bool;
  landFader : F;
  fogFader : F;
  rows : Z;
  cols : Z;
  angleRotateZ : float;
  angleRotateZOffset : float;
  location : StelLocation;
  defaultBortleIndex : Z;
  defaultFogSetting : Z;
  defaultExtinctionCoefficient : float;
  defaultTemperature : float;
  defaultPressure : float;
  horizonPolygon : Region;
  horizonPolygonLineColor : Vec3
}.

(** Assignments to the members that the inline functions write. *)
Definition set_landscapeBrightness (l : t) (x : float) : t :=
  mk (radius l) (name l) (author l) (description l) (minBrightness l)
     x (lightScapeBrightness l) (validLandscape l)
     (landFader l) (fogFader l) (rows l) (cols l) (angleRotateZ l)
     (angleRotateZOffset l) (location l) (defaultBortleIndex l)
     (defaultFogSetting l) (defaultExtinctionCoefficient l)
     (defaultTemperature l) (defaultPressure l) (horizonPolygon l)
     (horizonPolygonLineColor l).

Definition set_lightScapeBrightness (l : t) (x : float) : t :=
  mk (radius l) (name l) (author l) (description l) (minBrightness l)
     (landscapeBrightness l) x (validLandscape l)
     (landFader l) (fogFader l) (rows l) (cols l) (angleRotateZ l)
     (angleRotateZOffset l) (location l) (defaultBortleIndex l)
     (defaultFogSetting l) (defaultExtinctionCoefficient l)
     (defaultTemperature l) (defaultPressure l) (horizonPolygon l)
     (horizonPolygonLineColor l).

Definition set_landFader (l : t) (x : F) : t :=
  mk (radius l) (name l) (author l) (description l) (minBrightness l)
     (landscapeBrightness l) (lightScapeBrightness l) (validLandscape l)
     x (fogFader l) (rows l) (cols l) (angleRotateZ l)
     (angleRotateZOffset l) (location l) (defaultBortleIndex l)
     (defaultFogSetting l) (defaultExtinctionCoefficient l)
     (defaultTemperature l) (defaultPressure l) (horizonPolygon l)
     (horizonPolygonLineColor l).

Definition set_fogFader (l : t) (x : F) : t :=
  mk (radius l) (name l) (author l) (description l) (minBrightness l)
     (landscapeBrightness l) (lightScapeBrightness l) (validLandscape l)
     (landFader l) x (rows l) (cols l) (angleRotateZ l)
     (angleRotateZOffset l) (location l) (defaultBortleIndex l)
     (defaultFogSetting l) (defaultExtinctionCoefficient l)
     (defaultTemperature l) (defaultPressure l) (horizonPolygon l)
     (horizonPolygonLineColor l).

Definition set_angleRotateZOffset (l : t) (x : float) : t :=
  mk (radius l) (name l) (author l) (description l) (minBrightness l)
     (landscapeBrightness l) (lightScapeBrightness l) (validLandscape l)
     (landFader l) (fogFader l) (rows l) (cols l) (angleRotateZ l)
     x (location l) (defaultBortleIndex l)
     (defaultFogSetting l) (defaultExtinctionCoefficient l)
     (defaultTemperature l) (defaultPressure l) (horizonPolygon l)
     (horizonPolygonLineColor l).

(** [void update(double deltaTime)]: both faders advance by
    [(int)(deltaTime*1000)]; the cast is evaluated once per statement, with
    the same value. *)
Definition update (l : t) (deltaTime : float) : option t :=
  match double_to_int (deltaTime * 1000)%float with
  | Some ticks =>
      let l1 := set_landFader l (fader_update (landFader l) ticks) in
      Some (set_fogFader l1 (fader_update (fogFader l1) ticks))
  | None => None
  end.

(** [void setBrightness(const float b, const float pollutionBrightness=0.0f)] *)
Definition setBrightness (l : t) (b : float) (pollutionBrightness : float) : t :=
  set_lightScapeBrightness (set_landscapeBrightness l b) pollutionBrightness.

Definition setBrightness_default (l : t) (b : float) : t :=
  setBrightness l b (lit_f 0.0%float).

(** [void setFlagShow(const bool b) {landFader=b;}] *)
Definition setFlagShow (l : t) (b : bool) : t :=
  set_landFader l (fader_assign (landFader l) b).

(** [bool getFlagShow() const {return (bool)landFader;}] *)
Definition getFlagShow (l : t) : bool := fader_bool (landFader l).

(** [void setFlagShowFog(const bool b) {fogFader=b;}] *)
Definition setFlagShowFog (l : t) (b : bool) : t :=
  set_fogFader l (fader_assign (fogFader l) b).

(** [bool getFlagShowFog() const {return (bool)fogFader;}] *)
Definition getFlagShowFog (l : t) : bool := fader_bool (fogFader l).

Definition getName (l : t) : string := name l.
Definition getAuthorName (l : t) : string := author l.
Definition getDescription (l : t) : string := description l.
Definition getLocation (l : t) : StelLocation := location l.

(** [bool hasLocation() const {return (location.planetName.length() > 0);}] *)
Definition hasLocation (l : t) : bool :=
  0 <? Z.of_nat (String.length (planetName (location l))).

Definition getDefaultBortleIndex (l : t) : Z := defaultBortleIndex l.
Definition getDefaultFogSetting (l : t) : Z := defaultFogSetting l.
Definition getDefaultAtmosphericExtinction (l : t) : float :=
  defaultExtinctionCoefficient l.
Definition getDefaultAtmosphericTemperature (l : t) : float :=
  defaultTemperature l.
Definition getDefaultAtmosphericPressure (l : t) : float := defaultPressure l.
Definition getLandscapeMinimalBrightness (l : t) : float := minBrightness l.

(** [void setZRotation(float d) {angleRotateZOffset = d * M_PI/180.0f;}]:
    the product and the quotient are computed in [double] and the result
    is converted to [float]. *)
Definition setZRotation (l : t) (d : float) : t :=
  set_angleRotateZOffset l (to_single (d * M_PI / lit_f 180.0)%float).

(** [bool getIsFullyVisible() const {return landFader.getInterstate() >= 0.999f;}] *)
Definition getIsFullyVisible (l : t) : bool :=
  (lit_0_999f <=? fader_getInterstate (landFader l))%float.

(** [virtual float getOpacity(Vec3d azalt) const
     {return (azalt[2]<0 ? 1.0f : 0.0f); }] *)
Definition getOpacity (l : t) (azalt : Vec3) : float :=
  if (vec_at azalt 2 <? 0)%float then lit_f 1.0%float else lit_f 0.0%float.

End Class_Landscape.

Arguments t : clear implicits.

End Landscape.

(** ** The classes of Landscape.hpp and their member functions *)

Module Hierarchy.

(** The classes that the header declares. *)
Inductive Class : Type :=
| CLandscape
| CLandscapeOldStyle
| CLandscapePolygonal
| CLandscapeFisheye
| CLandscapeSpherical.

(** The public member functions that the header declares (constructors and
    destructors apart). *)
Inductive Member : Type :=
| m_load | m_draw | m_update | m_setBrightness
| m_setFlagShow | m_getFlagShow | m_setFlagShowFog | m_getFlagShowFog
| m_getName | m_getAuthorName | m_getDescription | m_getLocation
| m_hasLocation | m_getDefaultBortleIndex | m_getDefaultFogSetting
| m_getDefaultAtmosphericExtinction | m_getDefaultAtmosphericTemperature
| m_getDefaultAtmosphericPressure | m_getLandscapeMinimalBrightness
| m_setZRotation | m_getIsFullyVisible | m_getOpacity | m_create.

Definition all_members : list Member :=
  [ m_load; m_draw; m_update; m_setBrightness;
    m_setFlagShow; m_getFlagShow; m_setFlagShowFog; m_getFlagShowFog;
    m_getName; m_getAuthorName; m_getDescription; m_getLocation;
    m_hasLocation; m_getDefaultBortleIndex; m_getDefaultFogSetting;
    m_getDefaultAtmosphericExtinction; m_getDefaultAtmosphericTemperature;
    m_getDefaultAtmosphericPressure; m_getLandscapeMinimalBrightness;
    m_setZRotation; m_getIsFullyVisible; m_getOpacity; m_create ].

(** How a class declares a member function: [virtual ... = 0], [virtual]
    with an implementation, not virtual with its body in the header, or not
    virtual with its body elsewhere. *)
Inductive Decl : Type := PureVirtual | Virtual | Inline | Declared.

(** [class X : public Landscape] *)
Definition base (c : Class) : option Class :=
  match c with
  | CLandscape => None
  | _ => Some CLandscape
  end.

(** The declarations of each class, as the header lists them. *)
Definition declares (c : Class) (m : Member) : option Decl :=
  match c, m with
  | CLandscape, (m_load | m_draw) => Some PureVirtual
  | CLandscape, m_getOpacity => Some Virtual
  | CLandscape, m_create => None
  | CLandscape, _ => Some Inline
  | _, (m_load | m_draw | m_getOpacity) => Some Virtual
  | (CLandscapeFisheye | CLandscapeSpherical), m_create => Some Declared
  | _, _ => None
  end.

(** Member lookup: the class itself, then its base. *)
Definition lookup (c : Class) (m : Member) : option (Class * Decl) :=
  match declares c m with
  | Some d => Some (c, d)
  | None =>
      match base c with
      | Some b =>
          match declares b m with
          | Some d => Some (b, d)
          | None => None
          end
      | None => None
      end
  end.

Definition is_pure (r : option (Class * Decl)) : bool :=
  match r with
  | Some (_, PureVirtual) => true
  | _ => false
  end.

(** A class is abstract when the lookup of one of its members ends at a
    pure virtual declaration; objects exist of the other classes only. *)
Definition abstract (c : Class) : bool :=
  existsb (fun m => is_pure (lookup c m)) all_members.

Definition concrete (c : Class) : bool := negb (abstract c).

(** The renderer variants that the description names, and their classes. *)
Inductive Renderer : Type := Fisheye | Spherical | Polygonal | TiledOldStyle.

Definition class_of (r : Renderer) : Class :=
  match r with
  | Fisheye => CLandscapeFisheye
  | Spherical => CLandscapeSpherical
  | Polygonal => CLandscapePolygonal
  | TiledOldStyle => CLandscapeOldStyle
  end.

End Hierarchy.

(** ** Objects of the derived classes *)

Module Derived.

Import Cpp.

Section Data.

(** Host types: [StelTextureSP], [QImage] and [StelVertexArray]. *)
Context {Tex Image VertexArray : Type}.

(** [landscapeTexCoord] *)
Record landscapeTexCoord : Type := mkTexCoord {
  tex : Tex;
  texCoords : float * float * float * float
}.

(** [struct LOSSide] *)
Record LOSSide : Type := mkLOSSide { arr : VertexArray; side_tex : Tex }.

(** The data members of [LandscapeOldStyle]. *)
Record OldStyle : Type := mkOldStyle {
  groundVertexArr : list float;
  groundTexCoordArr : list float;
  sideTexs : list Tex;
  nbSideTexs : Z;
  nbSide : Z;
  sides : list landscapeTexCoord;
  os_fogTex : Tex;
  groundTex : Tex;
  sidesImages : list Image;
  nbDecorRepeat : Z;
  fogAltAngle : float;
  fogAngleShift : float;
  decorAltAngle : float;
  decorAngleShift : float;
  groundAngleShift : float;
  groundAngleRotateZ : float;
  drawGroundFirst : Z;
  tanMode : bool;
  calibrated : bool;
  precomputedSides : list LOSSide
}.

(** The data member of [LandscapePolygonal]. *)
Record Polygonal : Type := mkPolygonal { groundColor : Vec3 }.

(** The data members of [LandscapeFisheye]. *)
Record Fisheye : Type := mkFisheye {
  fe_mapTex : Tex;
  fe_mapTexFog : Tex;
  fe_mapTexIllum : Tex;
  fe_mapImage : Image;
  texFov : float
}.

(** The data members of [LandscapeSpherical]. *)
Record Spherical : Type := mkSpherical {
  mapTex : Tex;
  mapTexFog : Tex;
  mapTexIllum : Tex;
  mapTexTop : float;
  mapTexBottom : float;
  fogTexTop : float;
  fogTexBottom : float;
  illumTexTop : float;
  illumTexBottom : float;
  mapImage : Image
}.

(** The members that a derived class adds to those of [Landscape]. *)
Inductive Own : Type :=
| OwnOldStyle (d : OldStyle)
| OwnPolygonal (d : Polygonal)
| OwnFisheye (d : Fisheye)
| OwnSpherical (d : Spherical).

Definition class_of_own (d : Own) : Hierarchy.Class :=
  match d with
  | OwnOldStyle _ => Hierarchy.CLandscapeOldStyle
  | OwnPolygonal _ => Hierarchy.CLandscapePolygonal
  | OwnFisheye _ => Hierarchy.CLandscapeFisheye
  | OwnSpherical _ => Hierarchy.CLandscapeSpherical
  end.

Context {F Region : Type} `{FaderOps F}.

(** An object of a derived class: the [Landscape] subobject and the
    members of the class itself. *)
Record Object : Type := mkObject {
  super : Landscape.t F Region;
  own : Own
}.

(** A member function of [Landscape] that is not virtual, called on an
    object of a derived class, runs on the [Landscape] subobject. *)
Definition call (f : Landscape.t F Region -> Landscape.t F Region)
  (o : Object) : Object :=
  mkObject (f (super o)) (own o).

Definition call_opt
  (f : Landscape.t F Region -> option (Landscape.t F Region))
  (o : Object) : option Object :=
  match f (super o) with
  | Some l => Some (mkObject l (own o))
  | None => None
  end.

Definition update (o : Object) (deltaTime : float) : option Object :=
  call_opt (fun l => Landscape.update l deltaTime) o.

Definition setBrightness (o : Object) (b pollutionBrightness : float) : Object :=
  call (fun l => Landscape.setBrightness l b pollutionBrightness) o.

Definition setFlagShow (o : Object) (b : bool) : Object :=
  call (fun l => Landscape.setFlagShow l b) o.

Definition setFlagShowFog (o : Object) (b : bool) : Object :=
  call (fun l => Landscape.setFlagShowFog l b) o.

Definition setZRotation (o : Object) (d : float) : Object :=
  call (fun l => Landscape.setZRotation l d) o.

End Data.

Arguments OldStyle : clear implicits.
Arguments Fisheye : clear implicits.
Arguments Spherical : clear implicits.
Arguments Own : clear implicits.
Arguments Object : clear implicits.

End Derived.

(** ** What the public operations leave as it was loaded *)

Module Lifecycle.

Import Cpp.

Section Calls.

Context {Tex Image VertexArray F Region : Type} `{FaderOps F}.

#[local] Abbreviation Object := (Derived.Object Tex Image VertexArray F Region).

(** A call of one of the public operations that write members. *)
Inductive Call : Type :=
| call_update (deltaTime : float)
| call_setBrightness (b pollutionBrightness : float)
| call_setFlagShow (b : bool)
| call_setFlagShowFog (b : bool)
| call_setZRotation (d : float).

Definition perform (o : Object) (c : Call) : option Object :=
  match c with
  | call_update dt => Derived.update o dt
  | call_setBrightness b p => Some (Derived.setBrightness o b p)
  | call_setFlagShow b => Some (Derived.setFlagShow o b)
  | call_setFlagShowFog b => Some (Derived.setFlagShowFog o b)
  | call_setZRotation d => Some (Derived.setZRotation o d)
  end.

(** The altitude extents of the textures of a spherical landscape. *)
Definition extents (o : Object) : list float :=
  match Derived.own o with
  | Derived.OwnSpherical d =>
      [ Derived.mapTexTop d; Derived.mapTexBottom d; Derived.fogTexTop d;
        Derived.fogTexBottom d; Derived.illumTexTop d; Derived.illumTexBottom d ]
  | _ => []
  end.

(** The configuration attributes that the description lists: the rotation
    angles, the fade state, the horizon polygon and the altitude extents
    of the textures. *)
Record Configuration : Type := mkConfiguration {
  rotation : float * float;
  fade : F * F;
  horizon : Region;
  texture_extents : list float
}.

Definition configuration (o : Object) : Configuration :=
  let l := Derived.super o in
  mkConfiguration
    (Landscape.angleRotateZ l, Landscape.angleRotateZOffset l)
    (Landscape.landFader l, Landscape.fogFader l)
    (Landscape.horizonPolygon l)
    (extents o).

(** The attributes that [load] reads from landscape.ini (the comments of
    the header name the key of each), and the members of the derived
    class. *)
Record Loaded : Type := mkLoaded {
  ini_name : string;
  ini_author : string;
  ini_description : string;
  ini_minBrightness : float;
  ini_rows : Z;
  ini_cols : Z;
  ini_angleRotateZ : float;
  ini_location : StelLocation;
  ini_defaultBortleIndex : Z;
  ini_defaultFogSetting : Z;
  ini_defaultExtinctionCoefficient : float;
  ini_defaultTemperature : float;
  ini_defaultPressure : float;
  ini_horizonPolygon : Region;
  ini_horizonPolygonLineColor : Vec3;
  ini_own : Derived.Own Tex Image VertexArray
}.

Definition loaded (o : Object) : Loaded :=
  let l := Derived.super o in
  mkLoaded (Landscape.name l) (Landscape.author l) (Landscape.description l)
    (Landscape.minBrightness l) (Landscape.rows l) (Landscape.cols l)
    (Landscape.angleRotateZ l) (Landscape.location l)
    (Landscape.defaultBortleIndex l) (Landscape.defaultFogSetting l)
    (Landscape.defaultExtinctionCoefficient l) (Landscape.defaultTemperature l)
    (Landscape.defaultPressure l) (Landscape.horizonPolygon l)
    (Landscape.horizonPolygonLineColor l) (Derived.own o).

End Calls.

Arguments Call : clear implicits.
Arguments Configuration : clear implicits.
Arguments Loaded : clear implicits.

(** The statement that no public operation modifies the configuration
    attributes of a landscape. *)
Definition configuration_never_modified : Prop :=
  forall (Tex Image VertexArray F Region : Type) (ops : FaderOps F)
         (o o' : Derived.Object Tex Image VertexArray F Region) (c : Call),
    perform o c = Some o' -> configuration o' = configuration o.

End Lifecycle.

(** ** Novae.hpp *)

Module Novae.

(** [enum UpdateState], "used for keeping for track of the download/update
    status". *)
Inductive UpdateState : Type :=
| Updating            (* Update in progress *)
| CompleteNoUpdates   (* Update completed, there we no updates *)
| CompleteUpdates     (* Update completed, there were updates *)
| DownloadError       (* Error during download phase *)
| OtherError.         (* Other error *)

(** The enumerators in the order of their declaration. *)
Definition all_states : list UpdateState :=
  [Updating; CompleteNoUpdates; CompleteUpdates; DownloadError; OtherError].

(** The value of an enumerator. *)
Definition ordinal (s : UpdateState) : Z :=
  match s with
  | Updating => 0
  | CompleteNoUpdates => 1
  | CompleteUpdates => 2
  | DownloadError => 3
  | OtherError => 4
  end.

Definition state_eqb (a b : UpdateState) : bool := ordinal a =? ordinal b.

(** The classification that the comments of the enumerators give: an error,
    a completed update, or an update in progress. *)
Definition is_error (s : UpdateState) : bool :=
  match s with
  | DownloadError | OtherError => true
  | _ => false
  end.

Definition is_complete (s : UpdateState) : bool :=
  match s with
  | CompleteNoUpdates | CompleteUpdates => true
  | _ => false
  end.

(** Modelled from the spec: the class [Nova] (Nova.hpp) is not among the
    sources; a catalog entry is a searchable sky object with an identifier,
    an English name and a translated name. *)
Record Nova : Type := mkNova {
  designation : string;
  englishName : string;
  nameI18n : string
}.

(** The signals of the class. *)
Inductive Signal : Type :=
| updateStateChanged (state : UpdateState)
| jsonUpdateComplete.

(** The data members that the model reads or writes; [QDateTime] is a number
    of seconds. *)
Record t : Type := mk {
  NovaCnt : Z;
  nova : list Nova;
  updateState : UpdateState;
  updateUrl : string;
  updatesEnabled : bool;
  lastUpdate : Z;
  updateFrequencyDays : Z
}.

Definition set_updateState (n : t) (s : UpdateState) : t :=
  mk (NovaCnt n) (nova n) s (updateUrl n) (updatesEnabled n) (lastUpdate n)
     (updateFrequencyDays n).

Definition set_lastUpdate (n : t) (d : Z) : t :=
  mk (NovaCnt n) (nova n) (updateState n) (updateUrl n) (updatesEnabled n) d
     (updateFrequencyDays n).

Definition set_catalog (n : t) (c : list Nova) : t :=
  mk (Z.of_nat (List.length c)) c (updateState n) (updateUrl n)
     (updatesEnabled n) (lastUpdate n) (updateFrequencyDays n).

(** *** The functions with a body in the header *)

(** [virtual void update(double) {;}] *)
Definition update (n : t) (deltaTime : float) : t := n.

(** [virtual QString getName() const { return "Bright Novae"; }] *)
Definition getName (n : t) : string := "Bright Novae".

Definition getUpdatesEnabled (n : t) : bool := updatesEnabled n.

Definition setUpdatesEnabled (n : t) (b : bool) : t :=
  mk (NovaCnt n) (nova n) (updateState n) (updateUrl n) b (lastUpdate n)
     (updateFrequencyDays n).

Definition getLastUpdate (n : t) : Z := lastUpdate n.
Definition getUpdateFrequencyDays (n : t) : Z := updateFrequencyDays n.

Definition setUpdateFrequencyDays (n : t) (days : Z) : t :=
  mk (NovaCnt n) (nova n) (updateState n) (updateUrl n) (updatesEnabled n)
     (lastUpdate n) days.

Definition getUpdateState (n : t) : UpdateState := updateState n.
Definition getCountNovae (n : t) : Z := NovaCnt n.

(** *** The updater *)

(** Modelled from the spec: what a finished download delivers ("network/parse
    failure"): a network error, or data that is a catalog or fails to parse
    as one. *)
Inductive Reply : Type :=
| NetworkError
| Data (parsed : option (list Nova)).

Definition reply_failed (r : Reply) : bool :=
  match r with
  | NetworkError | Data None => true
  | Data (Some _) => false
  end.

Definition nova_eqb (a b : Nova) : bool :=
  String.eqb (designation a) (designation b)
  && String.eqb (englishName a) (englishName b)
  && String.eqb (nameI18n a) (nameI18n b).

Fixpoint catalog_eqb (a b : list Nova) : bool :=
  match a, b with
  | [], [] => true
  | x :: a', y :: b' => nova_eqb x y && catalog_eqb a' b'
  | _, _ => false
  end.

(** Modelled from the spec ("fetch-and-merge"): merging one downloaded entry;
    it replaces the entry of the same designation, or is added at the end. *)
Fixpoint upsert (x : Nova) (c : list Nova) : list Nova :=
  match c with
  | [] => [x]
  | y :: c' =>
      if String.eqb (designation y) (designation x) then x :: c'
      else y :: upsert x c'
  end.

Definition merge (old downloaded : list Nova) : list Nova :=
  fold_left (fun c x => upsert x c) downloaded old.

(** Modelled from the spec: the body of [updateJSON] is not among the
    sources.  A download run starts: the state becomes [Updating] and the
    change is signalled.  While a run is in progress no other run starts. *)
Definition updateJSON (n : t) (now : Z) : t * list Signal :=
  match updateState n with
  | Updating => (n, [])
  | _ =>
      (set_updateState (set_lastUpdate n now) Updating,
       [updateStateChanged Updating])
  end.

(** Modelled from the spec: the state in which a run ends, from what the
    download delivered: [DownloadError] is an "error during download phase",
    [OtherError] any other error, and a completed update has updates when the
    merge changed the catalog. *)
Definition outcome (old : list Nova) (r : Reply) : UpdateState * list Nova :=
  match r with
  | NetworkError => (DownloadError, old)
  | Data None => (OtherError, old)
  | Data (Some downloaded) =>
      let merged := merge old downloaded in
      if catalog_eqb merged old then (CompleteNoUpdates, old)
      else (CompleteUpdates, merged)
  end.

(** Modelled from the spec: the body of [updateDownloadComplete] is not
    among the sources.  The run in progress finishes: the downloaded catalog
    is merged, the state becomes the outcome of the run, and the change and
    the end of the update are signalled. *)
Definition updateDownloadComplete (n : t) (r : Reply) : t * list Signal :=
  match updateState n with
  | Updating =>
      let (s, c) := outcome (nova n) r in
      (set_updateState (set_catalog n c) s,
       [updateStateChanged s; jsonUpdateComplete])
  | _ => (n, [])
  end.

(** Modelled from the spec: the body of [getSecondsToUpdate] is not among
    the sources: "the number of seconds till the next update". *)
Definition getSecondsToUpdate (n : t) (now : Z) : Z :=
  lastUpdate n + updateFrequencyDays n * 3600 * 24 - now.

(** Modelled from the spec: the body of [checkForUpdate] is not among the
    sources: "called periodically by a timer; if the last update was longer
    than [the update frequency] ago then the update is done". *)
Definition checkForUpdate (n : t) (now : Z) : t * list Signal :=
  if updatesEnabled n && (getSecondsToUpdate n now <=? 0)
  then updateJSON n now
  else (n, []).

(** What can happen to the module between two observations. *)
Inductive Event : Type :=
| CallUpdateJSON (now : Z)
| TimerCheckForUpdate (now : Z)
| DownloadComplete (r : Reply)
| CallUpdate (deltaTime : float)
| CallSetUpdatesEnabled (b : bool)
| CallSetUpdateFrequencyDays (days : Z).

Definition step (n : t) (e : Event) : t * list Signal :=
  match e with
  | CallUpdateJSON now => updateJSON n now
  | TimerCheckForUpdate now => checkForUpdate n now
  | DownloadComplete r => updateDownloadComplete n r
  | CallUpdate dt => (update n dt, [])
  | CallSetUpdatesEnabled b => (setUpdatesEnabled n b, [])
  | CallSetUpdateFrequencyDays d => (setUpdateFrequencyDays n d, [])
  end.

(** A run of the module over a sequence of events: the final state and the
    signals emitted, in order. *)
Fixpoint run (n : t) (es : list Event) : t * list Signal :=
  match es with
  | [] => (n, [])
  | e :: es' =>
      let (n1, out1) := step n e in
      let (n2, out2) := run n1 es' in
      (n2, out1 ++ out2)
  end.

(** The states that the module goes through, one per event. *)
Fixpoint states (n : t) (es : list Event) : list UpdateState :=
  match es with
  | [] => []
  | e :: es' => updateState (fst (step n e)) :: states (fst (step n e)) es'
  end.

(** The changes in a sequence of states that starts from [s]: the new state
    of every step that changes the state. *)
Fixpoint changes (s : UpdateState) (l : list UpdateState) : list UpdateState :=
  match l with
  | [] => []
  | s' :: l' =>
      if state_eqb s s' then changes s' l' else s' :: changes s' l'
  end.

(** The states announced by the [updateStateChanged] signals of a trace. *)
Fixpoint announced (out : list Signal) : list UpdateState :=
  match out with
  | [] => []
  | updateStateChanged s :: out' => s :: announced out'
  | jsonUpdateComplete :: out' => announced out'
  end.

(** The transitions of the state machine: to [Updating] when a run starts,
    from [Updating] to one of the four other states when it finishes. *)
Definition transition (a b : UpdateState) : bool :=
  match a, b with
  | Updating, Updating => false
  | Updating, _ => true
  | _, Updating => true
  | _, _ => false
  end.

(** A sequence of states that starts from [s] follows the state machine when
    every step keeps the state or is one of its transitions. *)
Fixpoint follows (s : UpdateState) (l : list UpdateState) : bool :=
  match l with
  | [] => true
  | s' :: l' => (state_eqb s s' || transition s s') && follows s' l'
  end.

(** *** The object search interface *)

Definition upper_ascii (c : ascii) : ascii :=
  let k := nat_of_ascii c in
  if ((97 <=? k) && (k <=? 122))%nat then ascii_of_nat (k - 32) else c.

(** Modelled from the spec: names are compared "case in-sensitive"; the
    letters a to z are mapped to upper case. *)
Fixpoint toUpper (s : string) : string :=
  match s with
  | EmptyString => EmptyString
  | String c s' => String (upper_ascii c) (toUpper s')
  end.

(** Equality of two names, case apart. *)
Definition same_name (a b : string) : bool := String.eqb (toUpper a) (toUpper b).

Fixpoint contains (p s : string) : bool :=
  String.prefix p s
  || match s with
     | EmptyString => false
     | String _ s' => contains p s'
     end.

(** Modelled from the spec: whether a name completes [objPrefix], "the case
    insensitive first letters of the searched object": from its first
    letters, or anywhere in it when [useStartOfWords] is off. *)
Definition completes (useStartOfWords : bool) (objPrefix name : string) : bool :=
  if useStartOfWords then String.prefix (toUpper objPrefix) (toUpper name)
  else contains (toUpper objPrefix) (toUpper name).

(** Modelled from the spec: the bodies of the search functions are not among
    the sources; the header says of each "return the matching object's
    pointer if exists or NULL" for "the case in-sensitive name". *)
Definition searchBy (key : Nova -> string) (n : t) (s : string) : option Nova :=
  find (fun x => same_name (key x) s) (nova n).

Definition searchByName (n : t) (name : string) : option Nova :=
  searchBy englishName n name.

Definition searchByNameI18n (n : t) (name : string) : option Nova :=
  searchBy nameI18n n name.

(** Modelled from the spec: "find and return the list of at most maxNbItem
    objects auto-completing the passed object name; a list of matching
    object name, or an empty list if nothing match". *)
Definition listMatching (key : Nova -> string) (n : t)
  (objPrefix : string) (maxNbItem : Z) (useStartOfWords : bool) : list string :=
  if maxNbItem <=? 0 then []
  else
    firstn (Z.to_nat maxNbItem)
      (filter (completes useStartOfWords objPrefix) (map key (nova n))).

Definition listMatchingObjects (n : t) (objPrefix : string) (maxNbItem : Z)
  (useStartOfWords : bool) : list string :=
  listMatching englishName n objPrefix maxNbItem useStartOfWords.

Definition listMatchingObjectsI18n (n : t) (objPrefix : string) (maxNbItem : Z)
  (useStartOfWords : bool) : list string :=
  listMatching nameI18n n objPrefix maxNbItem useStartOfWords.

End Novae.

(** ** The build scripts (CMakeLists.txt of MeteorShowers and CompassMarks) *)

Module CMake.

Local Open Scope string_scope.

(** An argument of a command: a word, a reference to a variable, or a
    reference followed by a path. *)
Inductive Arg : Type :=
| Word (w : string)
| Ref (var : string)
| RefPath (var : string) (rest : string).

(** A command invocation. *)
Record Command : Type := mkCommand { cmd : string; args : list Arg }.

Definition Script : Type := list Command.

(** CompassMarks/src/CMakeLists.txt *)
Definition CompassMarks_script : Script :=
  [ mkCommand "INCLUDE_DIRECTORIES" [Word "."];
    mkCommand "LINK_DIRECTORIES" [RefPath "BUILD_DIR" "/src"];
    mkCommand "SET"
      [Word "CompassMarks_SRCS"; Word "CompassMarks.hpp"; Word "CompassMarks.cpp"];
    mkCommand "SET" [Word "CompassMarks_RES"; Word "../CompassMarks.qrc"];
    mkCommand "QT5_ADD_RESOURCES" [Word "CompassMarks_RES_CXX"; Ref "CompassMarks_RES"];
    mkCommand "SET"
      [Word "extLinkerOption"; Ref "JPEG_LIBRARIES"; Ref "PNG_LIBRARIES";
       Ref "OPENGL_LIBRARIES"];
    mkCommand "ADD_LIBRARY"
      [Word "CompassMarks-static"; Word "STATIC"; Ref "CompassMarks_SRCS";
       Ref "CompassMarks_RES_CXX"];
    mkCommand "QT5_USE_MODULES"
      [Word "CompassMarks-static"; Word "Core"; Word "Network"; Word "Widgets"];
    mkCommand "SET_TARGET_PROPERTIES"
      [Word "CompassMarks-static"; Word "PROPERTIES"; Word "OUTPUT_NAME";
       Word "CompassMarks"];
    mkCommand "TARGET_LINK_LIBRARIES"
      [Word "CompassMarks-static"; Ref "extLinkerOption"];
    mkCommand "SET_TARGET_PROPERTIES"
      [Word "CompassMarks-static"; Word "PROPERTIES"; Word "COMPILE_FLAGS";
       Word "-DQT_STATICPLUGIN"];
    mkCommand "ADD_DEPENDENCIES" [Word "AllStaticPlugins"; Word "CompassMarks-static"] ].

(** MeteorShowers/src/CMakeLists.txt *)
Definition MeteorShowers_script : Script :=
  [ mkCommand "INCLUDE_DIRECTORIES"
      [Word "."; Word "gui";
       RefPath "CMAKE_BINARY_DIR" "/plugins/MeteorShowers/src";
       RefPath "CMAKE_BINARY_DIR" "/plugins/MeteorShowers/src/gui"];
    mkCommand "LINK_DIRECTORIES" [RefPath "BUILD_DIR" "/src"];
    mkCommand "SET"
      [Word "MeteorShowers_SRCS";
       Word "MeteorShower.hpp"; Word "MeteorShower.cpp";
       Word "MeteorShowers.hpp"; Word "MeteorShowers.cpp";
       Word "MeteorStream.hpp"; Word "MeteorStream.cpp";
       Word "gui/MeteorShowerDialog.hpp"; Word "gui/MeteorShowerDialog.cpp"];
    mkCommand "SET" [Word "MeteorShowersDialog_UIS"; Word "gui/meteorShowerDialog.ui"];
    mkCommand "QT5_WRAP_UI"
      [Word "MeteorShowersDialog_UIS_H"; Ref "MeteorShowersDialog_UIS"];
    mkCommand "SET" [Word "MeteorShowers_RES"; Word "../resources/MeteorShower.qrc"];
    mkCommand "QT5_ADD_RESOURCES" [Word "MeteorShowers_RES_CXX"; Ref "MeteorShowers_RES"];
    mkCommand "SET"
      [Word "extLinkerOption"; Ref "QT_LIBRARIES"; Ref "JPEG_LIBRARIES";
       Ref "PNG_LIBRARIES"; Ref "OPENGL_LIBRARIES"; Ref "ICONV_LIBRARIES";
       Ref "INTL_LIBRARIES"];
    mkCommand "ADD_LIBRARY"
      [Word "MeteorShowers-static"; Word "STATIC"; Ref "MeteorShowers_SRCS";
       Ref "MeteorShowers_MOC_SRCS"; Ref "MeteorShowers_RES_CXX";
       Ref "MeteorShowersDialog_UIS_H"];
    mkCommand "QT5_USE_MODULES"
      [Word "MeteorShowers-static"; Word "Core"; Word "Declarative"; Word "Network"];
    mkCommand "SET_TARGET_PROPERTIES"
      [Word "MeteorShowers-static"; Word "PROPERTIES"; Word "OUTPUT_NAME";
       Word "MeteorShowers"];
    mkCommand "TARGET_LINK_LIBRARIES"
      [Word "MeteorShowers-static"; Ref "extLinkerOption"];
    mkCommand "SET_TARGET_PROPERTIES"
      [Word "MeteorShowers-static"; Word "PROPERTIES"; Word "COMPILE_FLAGS";
       Word "-DQT_STATICPLUGIN"];
    mkCommand "ADD_DEPENDENCIES" [Word "AllStaticPlugins"; Word "MeteorShowers-static"] ].

(** The commands that define an operation (a function or a macro) and those
    that direct the flow of control. *)
Definition defining : list string := ["FUNCTION"; "MACRO"].
Definition control : list string := ["IF"; "ELSEIF"; "ELSE"; "FOREACH"; "WHILE"].

(** The commands that describe the build: directories, variables, generated
    files, targets and their properties. *)
Definition describing : list string :=
  [ "INCLUDE_DIRECTORIES"; "LINK_DIRECTORIES"; "SET"; "QT5_WRAP_UI";
    "QT5_ADD_RESOURCES"; "ADD_LIBRARY"; "QT5_USE_MODULES";
    "SET_TARGET_PROPERTIES"; "TARGET_LINK_LIBRARIES"; "ADD_DEPENDENCIES" ].

Definition mem (s : string) (l : list string) : bool := existsb (String.eqb s) l.

(** Command names are case insensitive. *)
Definition is_in (l : list string) (c : Command) : bool :=
  mem (Novae.toUpper (cmd c)) l.

(** The names of the operations that a script defines. *)
Definition operations (s : Script) : list (list Arg) :=
  map args (filter (is_in defining) s).

(** *** Evaluation of a script *)

(** A file that a target is built from: written by hand, or generated by a
    Qt tool from the file named. *)
Inductive Item : Type :=
| Written (path : string)
| Generated (from : string).

Definition item_path (i : Item) : string :=
  match i with Written p | Generated p => p end.

Record Target : Type := mkTarget {
  target_name : string;
  target_kind : string;
  target_sources : list Item;
  target_modules : list string;
  target_properties : list (string * string);
  target_libraries : list string
}.

Record Build : Type := mkBuild {
  variables : list (string * list Item);
  include_dirs : list string;
  link_dirs : list string;
  targets : list Target;
  dependencies : list (string * string)
}.

Fixpoint get (vars : list (string * list Item)) (v : string) : list Item :=
  match vars with
  | [] => []
  | (k, x) :: vars' => if String.eqb k v then x else get vars' v
  end.

(** The value of a variable is the list of its elements, those that the
    semicolons of the value separate; an element can be empty.  A variable
    that is not set has no element. *)
Definition nonempty (i : Item) : bool :=
  match item_path i with
  | EmptyString => false
  | String _ _ => true
  end.

(** The text of an argument once its reference is replaced by the value, cut
    at the semicolons: the text that follows a reference continues the last
    element of the value. *)
Definition pieces (vars : list (string * list Item)) (a : Arg) : list Item :=
  match a with
  | Word w => [Written w]
  | Ref v => get vars v
  | RefPath v rest =>
      match get vars v with
      | [] => [Written rest]
      | i :: l => removelast (i :: l) ++ [Written (item_path (last l i) ++ rest)]
      end
  end.

(** Expansion of an argument that is not quoted: one argument for each
    element that is not empty; a reference to a variable that is not set
    expands to nothing. *)
Definition expand (vars : list (string * list Item)) (a : Arg) : list Item :=
  filter nonempty (pieces vars a).

Definition expand_all (vars : list (string * list Item)) (l : list Arg) : list Item :=
  flat_map (expand vars) l.

Definition paths (l : list Item) : list string := map item_path l.

Definition on_target (name : string) (f : Target -> Target) (b : Build) : Build :=
  mkBuild (variables b) (include_dirs b) (link_dirs b)
    (map (fun t => if String.eqb (target_name t) name then f t else t) (targets b))
    (dependencies b).

(** The arguments of a Qt macro that name files: those before the keyword
    [OPTIONS]. *)
Fixpoint before_options (l : list string) : list string :=
  match l with
  | [] => []
  | x :: l' => if String.eqb x "OPTIONS" then [] else x :: before_options l'
  end.

Fixpoint pairs (l : list string) : list (string * string) :=
  match l with
  | k :: v :: l' => (k, v) :: pairs l'
  | _ => []
  end.

(** The effect of one command; [None] for a command that is not one of the
    describing commands, or is ill-formed.  The two macros of Qt append one
    generated file for each file named to the value that their output
    variable has when they are called, and set the variable to the elements
    of the result that are not empty. *)
Definition exec (b : Build) (c : Command) : option Build :=
  let vars := variables b in
  match Novae.toUpper (cmd c), args c with
  | "INCLUDE_DIRECTORIES", l =>
      Some (mkBuild vars (include_dirs b ++ paths (expand_all vars l)) (link_dirs b)
              (targets b) (dependencies b))
  | "LINK_DIRECTORIES", l =>
      Some (mkBuild vars (include_dirs b) (link_dirs b ++ paths (expand_all vars l))
              (targets b) (dependencies b))
  | "SET", Word v :: l =>
      Some (mkBuild ((v, expand_all vars l) :: vars) (include_dirs b) (link_dirs b)
              (targets b) (dependencies b))
  | ("QT5_WRAP_UI" | "QT5_ADD_RESOURCES"), Word v :: l =>
      Some (mkBuild
              ((v, filter nonempty
                     (get vars v
                      ++ map Generated (before_options (paths (expand_all vars l)))))
                 :: vars)
              (include_dirs b) (link_dirs b) (targets b) (dependencies b))
  | "ADD_LIBRARY", Word n :: Word k :: l =>
      Some (mkBuild vars (include_dirs b) (link_dirs b)
              (targets b ++ [mkTarget n k (expand_all vars l) [] [] []])
              (dependencies b))
  | "QT5_USE_MODULES", Word n :: l =>
      Some (on_target n
              (fun t => mkTarget (target_name t) (target_kind t) (target_sources t)
                          (target_modules t ++ paths (expand_all vars l))
                          (target_properties t) (target_libraries t)) b)
  | "SET_TARGET_PROPERTIES", Word n :: Word "PROPERTIES" :: l =>
      Some (on_target n
              (fun t => mkTarget (target_name t) (target_kind t) (target_sources t)
                          (target_modules t)
                          (target_properties t ++ pairs (paths (expand_all vars l)))
                          (target_libraries t)) b)
  | "TARGET_LINK_LIBRARIES", Word n :: l =>
      Some (on_target n
              (fun t => mkTarget (target_name t) (target_kind t) (target_sources t)
                          (target_modules t) (target_properties t)
                          (target_libraries t ++ paths (expand_all vars l))) b)
  | "ADD_DEPENDENCIES", [Word a; Word d] =>
      Some (mkBuild vars (include_dirs b) (link_dirs b) (targets b)
              (dependencies b ++ [(a, d)]))
  | _, _ => None
  end.

Fixpoint eval (b : Build) (s : Script) : option Build :=
  match s with
  | [] => Some b
  | c :: s' =>
      match exec b c with
      | Some b' => eval b' s'
      | None => None
      end
  end.

(** The build in which a script starts, given the variables that the
    enclosing project has set. *)
Definition initial (outer : list (string * list Item)) : Build :=
  mkBuild outer [] [] [] [].

(** *** The two plugins in the repository *)

Inductive Plugin : Type := MeteorShowers | CompassMarks.

Inductive Content : Type :=
| BuildScript (s : Script)
| CppSource.

Record File : Type := mkFile { file_name : string; content : Content }.

(** The files of each plugin that the repository holds. *)
Definition files (p : Plugin) : list File :=
  match p with
  | MeteorShowers => [mkFile "CMakeLists.txt" (BuildScript MeteorShowers_script)]
  | CompassMarks => [mkFile "CMakeLists.txt" (BuildScript CompassMarks_script)]
  end.

Definition script_of (p : Plugin) : Script :=
  match p with
  | MeteorShowers => MeteorShowers_script
  | CompassMarks => CompassMarks_script
  end.

Definition library_of (p : Plugin) : string :=
  match p with
  | MeteorShowers => "MeteorShowers-static"
  | CompassMarks => "CompassMarks-static"
  end.

Definition output_of (p : Plugin) : string :=
  match p with
  | MeteorShowers => "MeteorShowers"
  | CompassMarks => "CompassMarks"
  end.

Definition is_build_script (f : File) : bool :=
  match content f with BuildScript _ => true | CppSource => false end.

(** The targets of a build, with their kind and properties, and the
    dependencies between targets. *)
Definition summary (b : Build)
  : list string * list string * list (list (string * string))
    * list (string * string) :=
  (map target_name (targets b), map target_kind (targets b),
   map target_properties (targets b), dependencies b).

(** The files written by hand that the library of a plugin is built from. *)
Definition written_sources (b : Build) : list string :=
  flat_map
    (fun t => flat_map (fun i => match i with Written p => [p] | Generated _ => [] end)
                (target_sources t))
    (targets b).

End CMake.

(** ** Sample objects *)

Module Sample.

Import Cpp StelFader.
Local Open Scope string_scope.

(** A landscape as a constructor and [load] may leave it: both faders off
    and at rest, no rotation offset. *)
Definition landscape : Landscape.t LinearFader (list Vec3) :=
  Landscape.mk 2%float "Ocean" "Stellarium" "An ocean" (-1)%float
    0%float 0%float true StelFader.default StelFader.default 20 40
    0%float 0%float (mkStelLocation "Earth") (-1) (-1) (-1)%float
    (-1000)%float (-2)%float [] (mkVec3 (-1)%float 0%float 0%float).

Definition spherical : Derived.Object unit unit unit LinearFader (list Vec3) :=
  Derived.mkObject landscape
    (Derived.OwnSpherical
       (Derived.mkSpherical tt tt tt 0x1.921fb6p+0%float (-0x1.921fb6p+0)%float
          0x1.921fb6p+0%float (-0x1.921fb6p+0)%float
          0x1.921fb6p+0%float (-0x1.921fb6p+0)%float tt)).

Definition down : Vec3 := mkVec3 0%float 0%float (-1)%float.
Definition up : Vec3 := mkVec3 0%float 0%float 1%float.

(** A module with a catalog of three novae, no update in progress. *)
Definition catalog : list Novae.Nova :=
  [ Novae.mkNova "V1369 Cen" "Nova Centauri 2013" "Nova du Centaure 2013";
    Novae.mkNova "V339 Del" "Nova Delphini 2013" "Nova du Dauphin 2013";
    Novae.mkNova "V1500 Cyg" "Nova Cygni 1975" "Nova du Cygne 1975" ].

Definition novae : Novae.t :=
  Novae.mk 3 catalog Novae.CompleteNoUpdates "http://stellarium.org/json/novae.json"
    true 0 100.

End Sample.

(** ** The formats of a horizon list (Landscape.hpp) *)

Module HorizonList.

(** [enum horizonListMode]: "the list of azimuths and altitudes can come in
    various formats". *)
Inductive horizonListMode : Type :=
| azDeg_altDeg     (* azimuth[degrees] altitude[degrees] *)
| azDeg_zdDeg      (* azimuth[degrees] zenithDistance[degrees] *)
| azRad_altRad     (* azimuth[radians] altitude[radians] *)
| azRad_zdRad      (* azimuth[radians] zenithDistance[radians] *)
| azGrad_altGrad   (* azimuth[new_degrees] altitude[new_degrees] *)
| azGrad_zdGrad.   (* azimuth[new_degrees] zenithDistance[new_degrees] *)

(** The value that the header gives to each enumerator. *)
Definition value (m : horizonListMode) : Z :=
  match m with
  | azDeg_altDeg => 0
  | azDeg_zdDeg => 1
  | azRad_altRad => 2
  | azRad_zdRad => 3
  | azGrad_altGrad => 4
  | azGrad_zdGrad => 5
  end.

(** The unit of the two angles, as the comment of each enumerator gives it. *)
Inductive AngleUnit : Type := Degrees | Radians | NewDegrees.

Definition unit_of (m : horizonListMode) : AngleUnit :=
  match m with
  | azDeg_altDeg | azDeg_zdDeg => Degrees
  | azRad_altRad | azRad_zdRad => Radians
  | azGrad_altGrad | azGrad_zdGrad => NewDegrees
  end.

(** Whether the second angle is a zenith distance rather than an altitude. *)
Definition is_zenith_distance (m : horizonListMode) : bool :=
  match m with
  | azDeg_zdDeg | azRad_zdRad | azGrad_zdGrad => true
  | azDeg_altDeg | azRad_altRad | azGrad_altGrad => false
  end.

Definition unit_index (u : AngleUnit) : Z :=
  match u with
  | Degrees => 0
  | Radians => 1
  | NewDegrees => 2
  end.

End HorizonList.

(** ** What the build scripts take from the enclosing project *)

Module BuildInputs.

Import CMake.
Local Open Scope string_scope.

(** What a build hands to the generator: the directories, the targets and
    the dependencies (the variables are local to the script). *)
Definition observable (b : Build)
  : list string * list string * list Target * list (string * string) :=
  (include_dirs b, link_dirs b, targets b, dependencies b).











End BuildInputs.

(** * Properties *)

(** ** Numbers *)

Module CppFacts.

Import Cpp.

Lemma lit_one : lit_f 1.0%float = 1%float.
Proof. reflexivity. Qed.

Lemma lit_zero : lit_f 0.0%float = 0%float.
Proof. reflexivity. Qed.

(** [0.999f] is the binary32 value 16760439 * 2^-24. *)
Lemma lit_0_999f_value : Prim2SF lit_0_999f = S754_finite false 8998192171450368 (-53).
Proof. reflexivity. Qed.

Lemma one_is_not_zero : 1%float <> 0%float.
Proof.
  intro E.
  assert (A : (0 <? 1)%float = (0 <? 0)%float) by (rewrite E; reflexivity).
  vm_compute in A. discriminate A.
Qed.

(** A value that [double_to_int] returns is an [int]. *)
Lemma double_to_int_range (x : float) (z : Z) :
  double_to_int x = Some z -> INT_MIN <= z <= INT_MAX.
Proof.
  unfold double_to_int.
  destruct (trunc x) as [t|]; [|discriminate].
  destruct ((INT_MIN <=? t) && (t <=? INT_MAX)) eqn:E; [|discriminate].
  intros [= <-].
  apply andb_true_iff in E. destruct E as [E1 E2].
  apply Z.leb_le in E1. apply Z.leb_le in E2. lia.
Qed.

(** The comparison of two floating-point values, read the other way. *)
Lemma SFcompare_antisym (x y : spec_float) :
  SFcompare y x = option_map CompOpp (SFcompare x y).
Proof.
  destruct x as [sx|sx| |sx mx ex], y as [sy|sy| |sy my ey]; cbn;
    try destruct sx; try destruct sy; try reflexivity;
    rewrite (Z.compare_antisym ex ey); destruct (ex ?= ey); cbn;
    try reflexivity;
    change (Pos.compare_cont Eq my mx) with (Pos.compare my mx);
    change (Pos.compare_cont Eq mx my) with (Pos.compare mx my);
    rewrite (Pos.compare_antisym mx my); try reflexivity;
    now rewrite CompOpp_involutive.
Qed.

(** [x < y] excludes [y <= x]. *)
Lemma ltb_not_leb (x y : float) :
  (x <? y)%float = true -> (y <=? x)%float = false.
Proof.
  rewrite FloatAxioms.ltb_spec, FloatAxioms.leb_spec.
  unfold SFltb, SFleb. rewrite (SFcompare_antisym (Prim2SF x) (Prim2SF y)).
  destruct (SFcompare (Prim2SF x) (Prim2SF y)) as [[| |]|]; cbn;
    intros E; try discriminate E; reflexivity.
Qed.

(** The comparison [x < 0] holds of the negative numbers, and of nothing
    else: not of the two zeros, not of a value that is not a number. *)
Lemma ltb_zero_negative (x : float) : (x <? 0)%float = is_negative x.
Proof.
  rewrite FloatAxioms.ltb_spec. unfold is_negative.
  change (Prim2SF 0) with (S754_zero false).
  destruct (Prim2SF x) as [s|s| |s m e]; cbn; try destruct s; reflexivity.
Qed.

Example cast_16_6 : double_to_int (0x1.0ff972474538fp-6 * 1000)%float = Some 16.
Proof. reflexivity. Qed.

Example cast_negative : double_to_int (-0x1.0ff972474538fp-6 * 1000)%float = Some (-16).
Proof. reflexivity. Qed.

Example cast_out_of_range : double_to_int (1e20 * 1000)%float = None.
Proof. reflexivity. Qed.

Example cast_nan : double_to_int (nan * 1000)%float = None.
Proof. reflexivity. Qed.

End CppFacts.

(** ** The fader of the model *)

Module StelFaderFacts.

Import StelFader.

Lemma state_assign (f : LinearFader) (s : bool) : state (assign f s) = s.
Proof.
  unfold assign.
  destruct (isTransiting f).
  - destruct (Bool.eqb s (state f)) eqn:E; cbn; [|reflexivity].
    apply Bool.eqb_prop in E. now rewrite E.
  - destruct (Bool.eqb (state f) s) eqn:E; cbn; [|reflexivity].
    now apply Bool.eqb_prop in E.
Qed.

(** Assignment starts or reverses a transition; it does not move the
    interstate value. *)
Lemma interstate_assign (f : LinearFader) (s : bool) :
  interstate (assign f s) = interstate f.
Proof.
  unfold assign.
  destruct (isTransiting f);
    [destruct (Bool.eqb s (state f)) | destruct (Bool.eqb (state f) s)];
    reflexivity.
Qed.

#[export] Instance LinearFader_laws : FaderLaws LinearFader.
Proof. constructor. exact state_assign. Qed.

Example fade_in_half :
  interstate (update (assign default true) 500) = 0.5%float.
Proof. reflexivity. Qed.

Example fade_in_done :
  interstate (update (assign default true) 1000) = 1%float.
Proof. reflexivity. Qed.

End StelFaderFacts.

(** ** Landscape *)

Module LandscapeFacts.

Import Cpp StelFader StelFaderFacts.

Section Setters.

Context {F Region : Type} `{FaderOps F}.

#[local] Abbreviation Landscape := (Landscape.t F Region).

Lemma landFader_setFlagShow (l : Landscape) (b : bool) :
  Landscape.landFader (Landscape.setFlagShow l b)
  = fader_assign (Landscape.landFader l) b.
Proof. reflexivity. Qed.

Lemma fogFader_setFlagShowFog (l : Landscape) (b : bool) :
  Landscape.fogFader (Landscape.setFlagShowFog l b)
  = fader_assign (Landscape.fogFader l) b.
Proof. reflexivity. Qed.

(** [update] is defined when the number of milliseconds is an [int], and
    then advances both faders by that number. *)
Lemma update_defined (l : Landscape) (deltaTime : float) (ticks : Z) :
  double_to_int (deltaTime * 1000)%float = Some ticks ->
  exists l',
    Landscape.update l deltaTime = Some l'
    /\ Landscape.landFader l' = fader_update (Landscape.landFader l) ticks
    /\ Landscape.fogFader l' = fader_update (Landscape.fogFader l) ticks.
Proof.
  intros E. unfold Landscape.update. rewrite E.
  eexists. split; [reflexivity|]. split; reflexivity.
Qed.

Lemma update_undefined (l : Landscape) (deltaTime : float) :
  double_to_int (deltaTime * 1000)%float = None ->
  Landscape.update l deltaTime = None.
Proof. intros E. unfold Landscape.update. now rewrite E. Qed.

Lemma update_inv (l l' : Landscape) (deltaTime : float) :
  Landscape.update l deltaTime = Some l' ->
  exists ticks,
    double_to_int (deltaTime * 1000)%float = Some ticks
    /\ l' = Landscape.set_fogFader
              (Landscape.set_landFader l
                 (fader_update (Landscape.landFader l) ticks))
              (fader_update (Landscape.fogFader l) ticks).
Proof.
  unfold Landscape.update.
  destruct (double_to_int (deltaTime * 1000)%float) as [ticks|]; [|discriminate].
  intros [= <-]. exists ticks. split; reflexivity.
Qed.

End Setters.

Example opacity_below : Landscape.getOpacity Sample.landscape Sample.down = 1%float.
Proof. reflexivity. Qed.

Example opacity_above : Landscape.getOpacity Sample.landscape Sample.up = 0%float.
Proof. reflexivity. Qed.

(** On the mathematical horizon itself, at a negative zero and at a value
    that is not a number, the comparison is false. *)
Example opacity_on_horizon :
  Landscape.getOpacity Sample.landscape (mkVec3 1%float 0%float 0%float) = 0%float
  /\ Landscape.getOpacity Sample.landscape (mkVec3 1%float 0%float (-0)%float) = 0%float
  /\ Landscape.getOpacity Sample.landscape (mkVec3 0%float 0%float nan) = 0%float.
Proof. repeat split. Qed.

(** C8: the default [Landscape::getOpacity] is total and has two values:
    for every vector [azalt] it returns exactly 1.0 when [azalt[2] < 0], that
    is when the third component is a negative number, and exactly 0.0
    otherwise, whatever the state of the object (and whatever the other two
    components of the vector). *)
Theorem getOpacity_sign_of_third_component :
  forall (F Region : Type) (ops : FaderOps F)
         (l : Landscape.t F Region) (azalt : Vec3),
    ((vec_at azalt 2 <? 0)%float = true ->
       Landscape.getOpacity l azalt = 1%float)
    /\ ((vec_at azalt 2 <? 0)%float = false ->
          Landscape.getOpacity l azalt = 0%float)
    /\ (Landscape.getOpacity l azalt = 1%float
        \/ Landscape.getOpacity l azalt = 0%float)
    /\ (Landscape.getOpacity l azalt = 1%float <->
        is_negative (vec_at azalt 2) = true)
    /\ (forall (l' : Landscape.t F Region) (x y : float),
          Landscape.getOpacity l' (mkVec3 x y (v_2 azalt))
          = Landscape.getOpacity l azalt).
Proof.
  intros F Region ops l azalt.
  unfold Landscape.getOpacity. cbn [vec_at v_2].
  rewrite CppFacts.lit_one, CppFacts.lit_zero.
  rewrite <- (CppFacts.ltb_zero_negative (v_2 azalt)).
  destruct (v_2 azalt <? 0)%float eqn:E.
  - repeat split; auto. intros; discriminate.
  - pose proof CppFacts.one_is_not_zero as N.
    repeat split; auto; try (intros; discriminate).
    all: intros Z10; symmetry in Z10; contradiction.
Qed.

Example fully_visible_after_fade_in :
  exists l,
    Landscape.update (Landscape.setFlagShow Sample.landscape true) 1%float = Some l
    /\ Landscape.getIsFullyVisible l = true.
Proof. eexists. split; reflexivity. Qed.

(** C9: for every landscape and every boolean [b], [getFlagShow] after
    [setFlagShow(b)] returns [b], and [getFlagShowFog] after
    [setFlagShowFog(b)] returns [b]; [getIsFullyVisible] is true only when
    the interstate of the land fader is at least 0.999, so that it can be
    false immediately after [setFlagShow(true)]: it is, for a landscape
    whose land fader was off and at rest. *)
Theorem flag_show_roundtrip :
  forall (F Region : Type) (ops : FaderOps F) (laws : FaderLaws F)
         (l : Landscape.t F Region) (b : bool),
    Landscape.getFlagShow (Landscape.setFlagShow l b) = b
    /\ Landscape.getFlagShowFog (Landscape.setFlagShowFog l b) = b
    /\ (Landscape.getIsFullyVisible l = true <->
        (lit_0_999f <=? fader_getInterstate (Landscape.landFader l))%float = true)
    /\ ((fader_getInterstate (fader_assign (Landscape.landFader l) true)
           <? lit_0_999f)%float = true ->
        Landscape.getIsFullyVisible (Landscape.setFlagShow l true) = false)
    /\ (Landscape.getFlagShow (Landscape.setFlagShow Sample.landscape true) = true
        /\ Landscape.getIsFullyVisible (Landscape.setFlagShow Sample.landscape true)
           = false).
Proof.
  intros F Region ops laws l b.
  split; [|split; [|split; [|split]]].
  - unfold Landscape.getFlagShow. rewrite landFader_setFlagShow.
    apply fader_bool_assign.
  - unfold Landscape.getFlagShowFog. rewrite fogFader_setFlagShowFog.
    apply fader_bool_assign.
  - unfold Landscape.getIsFullyVisible. tauto.
  - intros Hlt. unfold Landscape.getIsFullyVisible.
    rewrite landFader_setFlagShow.
    now apply CppFacts.ltb_not_leb.
  - split; reflexivity.
Qed.

Lemma flag_show_roundtrip_witness :
  Landscape.getFlagShow
    (Landscape.setFlagShow (Landscape.setFlagShow Sample.landscape true) false)
  = false
  /\ Landscape.getFlagShowFog (Landscape.setFlagShowFog Sample.landscape true)
     = true.
Proof.
  split.
  - apply (flag_show_roundtrip LinearFader (list Vec3) LinearFader_ops
             LinearFader_laws
             (Landscape.setFlagShow Sample.landscape true) false).
  - apply (flag_show_roundtrip LinearFader (list Vec3) LinearFader_ops
             LinearFader_laws Sample.landscape true).
Defined.

End LandscapeFacts.

(** ** The class hierarchy *)

Module HierarchyFacts.

Import Cpp Hierarchy StelFader.

Lemma concrete_classes (c : Class) :
  concrete c = true <-> exists r : Renderer, c = class_of r.
Proof.
  split.
  - destruct c; intros E; try discriminate E.
    + now exists TiledOldStyle.
    + now exists Polygonal.
    + now exists Fisheye.
    + now exists Spherical.
  - intros [r ->]. now destruct r.
Qed.

Lemma class_of_injective (r1 r2 : Renderer) :
  class_of r1 = class_of r2 -> r1 = r2.
Proof. destruct r1, r2; intros E; try discriminate E; reflexivity. Qed.

(** [Landscape] itself is abstract: [load] and [draw] are pure virtual. *)
Lemma Landscape_abstract : abstract CLandscape = true.
Proof. reflexivity. Qed.

Section Objects.

Context {Tex Image VertexArray F Region : Type} `{FaderOps F}.

#[local] Abbreviation Object := (Derived.Object Tex Image VertexArray F Region).

Lemma object_class (o : Object) :
  exists r : Renderer, Derived.class_of_own (Derived.own o) = class_of r.
Proof.
  destruct (Derived.own o).
  - now exists TiledOldStyle.
  - now exists Polygonal.
  - now exists Fisheye.
  - now exists Spherical.
Qed.

Lemma own_call (f : Landscape.t F Region -> Landscape.t F Region) (o : Object) :
  Derived.own (Derived.call f o) = Derived.own o.
Proof. reflexivity. Qed.

Lemma call_opt_inv f (o o' : Object) :
  Derived.call_opt f o = Some o' ->
  exists l, f (Derived.super o) = Some l /\ o' = Derived.mkObject l (Derived.own o).
Proof.
  unfold Derived.call_opt.
  destruct (f (Derived.super o)) as [l|]; [|discriminate].
  intros [= <-]. now exists l.
Qed.

Lemma update_object (o : Object) (deltaTime : float) (ticks : Z) :
  double_to_int (deltaTime * 1000)%float = Some ticks ->
  exists o',
    Derived.update o deltaTime = Some o'
    /\ Landscape.landFader (Derived.super o')
       = fader_update (Landscape.landFader (Derived.super o)) ticks
    /\ Landscape.fogFader (Derived.super o')
       = fader_update (Landscape.fogFader (Derived.super o)) ticks
    /\ Derived.own o' = Derived.own o.
Proof.
  intros E.
  destruct (LandscapeFacts.update_defined (Derived.super o) deltaTime ticks E)
    as (l' & U & A & B).
  exists (Derived.mkObject l' (Derived.own o)).
  unfold Derived.update, Derived.call_opt. rewrite U.
  repeat split; assumption.
Qed.

End Objects.

(** C4: the hierarchy has exactly four concrete classes, one per renderer
    (fisheye, spherical, polygonal, tiled old-style); each declares [load],
    [draw] and [getOpacity]; for each the lookup of [update] and of
    [setBrightness] ends at the definition in [Landscape]; on an object of
    any of them [update] advances the land fader and the fog fader by
    [(int)(deltaTime*1000)] milliseconds, and [setBrightness] sets
    [landscapeBrightness] and [lightScapeBrightness]; both leave the members
    of the derived class as they were. *)
Theorem four_renderers_one_contract :
  (forall c : Class, concrete c = true <-> exists r : Renderer, c = class_of r)
  /\ (forall r1 r2 : Renderer, class_of r1 = class_of r2 -> r1 = r2)
  /\ (forall (r : Renderer) (m : Member),
        In m [m_load; m_draw; m_getOpacity] ->
        declares (class_of r) m = Some Virtual)
  /\ (forall (r : Renderer) (m : Member),
        In m [m_update; m_setBrightness] ->
        lookup (class_of r) m = Some (CLandscape, Inline))
  /\ (forall (Tex Image VertexArray F Region : Type) (ops : FaderOps F)
             (o : Derived.Object Tex Image VertexArray F Region),
        (exists r : Renderer, Derived.class_of_own (Derived.own o) = class_of r)
        /\ (forall (deltaTime : float) (ticks : Z),
              double_to_int (deltaTime * 1000)%float = Some ticks ->
              exists o',
                Derived.update o deltaTime = Some o'
                /\ Landscape.landFader (Derived.super o')
                   = fader_update (Landscape.landFader (Derived.super o)) ticks
                /\ Landscape.fogFader (Derived.super o')
                   = fader_update (Landscape.fogFader (Derived.super o)) ticks
                /\ Derived.own o' = Derived.own o)
        /\ (forall b pollutionBrightness : float,
              let o' := Derived.setBrightness o b pollutionBrightness in
              Landscape.landscapeBrightness (Derived.super o') = b
              /\ Landscape.lightScapeBrightness (Derived.super o')
                 = pollutionBrightness
              /\ Landscape.landFader (Derived.super o')
                 = Landscape.landFader (Derived.super o)
              /\ Landscape.fogFader (Derived.super o')
                 = Landscape.fogFader (Derived.super o)
              /\ Derived.own o' = Derived.own o)).
Proof.
  split; [exact concrete_classes|].
  split; [exact class_of_injective|].
  split.
  { intros r m Hm. cbn in Hm.
    destruct Hm as [<-|[<-|[<-|[]]]]; destruct r; reflexivity. }
  split.
  { intros r m Hm. cbn in Hm.
    destruct Hm as [<-|[<-|[]]]; destruct r; reflexivity. }
  intros Tex Image VertexArray F Region ops o.
  split; [apply object_class|].
  split.
  - intros deltaTime ticks E. now apply update_object.
  - intros b p. cbn. repeat split.
Qed.

Example update_spherical :
  exists o',
    Derived.update (Derived.setFlagShow Sample.spherical true) 0.25%float = Some o'
    /\ StelFader.interstate (Landscape.landFader (Derived.super o')) = 0.25%float
    /\ Derived.own o' = Derived.own Sample.spherical.
Proof. eexists. repeat split. Qed.

End HierarchyFacts.

(** ** What the public operations write *)

Module LifecycleFacts.

Import Cpp StelFader Lifecycle.

(** [setFlagShow(true)] starts the fade of the sample landscape, and
    [setZRotation(90)] turns it by a right angle. *)
Example sample_setFlagShow :
  option_map
    (fun o => state (Landscape.landFader (Derived.super o)))
    (perform Sample.spherical (call_setFlagShow true))
  = Some true.
Proof. reflexivity. Qed.

Example sample_setZRotation :
  option_map
    (fun o => Landscape.angleRotateZOffset (Derived.super o))
    (perform Sample.spherical (call_setZRotation 90%float))
  = Some 0x1.921fb6p+0%float.
Proof. reflexivity. Qed.

(** C2, as stated, fails: [setFlagShow(true)] on a landscape whose land fader
    is off changes the fade state (and [setZRotation] changes a rotation
    angle). *)
Lemma configuration_is_modified : ~ configuration_never_modified.
Proof.
  intros Hc.
  pose proof (Hc unit unit unit LinearFader (list Vec3) LinearFader_ops
                Sample.spherical _ (call_setFlagShow true) eq_refl) as E.
  apply (f_equal (fun c => state (fst (fade c)))) in E.
  vm_compute in E. discriminate E.
Qed.

(** C2, amended: a public operation of [Landscape] that writes members
    ([update], [setBrightness], [setFlagShow], [setFlagShowFog],
    [setZRotation]) leaves every attribute that was loaded from the ini file
    and every member of the derived class as it was; what it writes is one
    of the run-time members: the two faders, the two brightness values, the
    rotation offset. *)
Theorem loaded_attributes_only_read :
  forall (Tex Image VertexArray F Region : Type) (ops : FaderOps F)
         (o o' : Derived.Object Tex Image VertexArray F Region) (c : Call),
    perform o c = Some o' ->
    loaded o' = loaded o
    /\ match c with
       | call_update deltaTime =>
           exists ticks,
             double_to_int (deltaTime * 1000)%float = Some ticks
             /\ Derived.super o'
                = Landscape.set_fogFader
                    (Landscape.set_landFader (Derived.super o)
                       (fader_update (Landscape.landFader (Derived.super o)) ticks))
                    (fader_update (Landscape.fogFader (Derived.super o)) ticks)
       | call_setBrightness b p =>
           Derived.super o'
           = Landscape.set_lightScapeBrightness
               (Landscape.set_landscapeBrightness (Derived.super o) b) p
       | call_setFlagShow b =>
           Derived.super o'
           = Landscape.set_landFader (Derived.super o)
               (fader_assign (Landscape.landFader (Derived.super o)) b)
       | call_setFlagShowFog b =>
           Derived.super o'
           = Landscape.set_fogFader (Derived.super o)
               (fader_assign (Landscape.fogFader (Derived.super o)) b)
       | call_setZRotation d =>
           Derived.super o'
           = Landscape.set_angleRotateZOffset (Derived.super o)
               (to_single (d * M_PI / lit_f 180.0)%float)
       end.
Proof.
  intros Tex Image VertexArray F Region ops o o' c Hp.
  destruct c as [dt|b p|b|b|d]; cbn in Hp.
  - unfold Derived.update in Hp.
    apply HierarchyFacts.call_opt_inv in Hp. destruct Hp as (l & U & ->).
    apply LandscapeFacts.update_inv in U. destruct U as (ticks & E & ->).
    split; [reflexivity|]. exists ticks. split; [exact E|reflexivity].
  - injection Hp as <-. split; reflexivity.
  - injection Hp as <-. split; reflexivity.
  - injection Hp as <-. split; reflexivity.
  - injection Hp as <-. split; reflexivity.
Qed.

Lemma loaded_attributes_only_read_witness :
  loaded (Derived.setZRotation Sample.spherical 90%float) = loaded Sample.spherical
  /\ Derived.super (Derived.setZRotation Sample.spherical 90%float)
     = Landscape.set_angleRotateZOffset (Derived.super Sample.spherical)
         (to_single (90 * M_PI / lit_f 180.0)%float).
Proof.
  exact (loaded_attributes_only_read unit unit unit LinearFader (list Vec3)
           LinearFader_ops Sample.spherical
           (Derived.setZRotation Sample.spherical 90%float)
           (call_setZRotation 90%float) eq_refl).
Defined.

End LifecycleFacts.

(** ** Novae: the update states and the updater *)

Module NovaeFacts.

Import Novae.

Lemma state_eqb_eq (a b : UpdateState) : state_eqb a b = true <-> a = b.
Proof.
  unfold state_eqb. rewrite Z.eqb_eq.
  split; [|now intros ->].
  destruct a, b; cbn; intros E; try discriminate E; reflexivity.
Qed.

Lemma state_eqb_refl (a : UpdateState) : state_eqb a a = true.
Proof. now apply state_eqb_eq. Qed.

Lemma transition_changes (a b : UpdateState) :
  transition a b = true -> state_eqb a b = false.
Proof. destruct a, b; cbn; intros E; try discriminate E; reflexivity. Qed.

Lemma announced_app (o1 o2 : list Signal) :
  announced (o1 ++ o2) = announced o1 ++ announced o2.
Proof.
  induction o1 as [|[s|] o1 IH]; cbn; [reflexivity| |exact IH].
  now rewrite IH.
Qed.

(** Every state is an error, a completed update, or the update in progress,
    and only one of these. *)
Lemma classification (s : UpdateState) :
  (s = Updating /\ is_error s = false /\ is_complete s = false)
  \/ (is_complete s = true /\ is_error s = false /\ s <> Updating)
  \/ (is_error s = true /\ is_complete s = false /\ s <> Updating).
Proof.
  destruct s; cbn;
    [left | right; left | right; left | right; right | right; right];
    repeat split; discriminate.
Qed.

(** The state in which a run ends. *)
Lemma outcome_state (old : list Nova) (r : Reply) :
  let s := fst (outcome old r) in
  s <> Updating
  /\ is_error s = reply_failed r
  /\ is_complete s = negb (reply_failed r).
Proof.
  destruct r as [|[downloaded|]]; cbn.
  - repeat split; discriminate.
  - destruct (catalog_eqb (merge old downloaded) old); cbn;
      repeat split; discriminate.
  - repeat split; discriminate.
Qed.

Lemma updateDownloadComplete_state (n : t) (r : Reply) :
  updateState n = Updating ->
  updateDownloadComplete n r
  = (set_updateState (set_catalog n (snd (outcome (nova n) r)))
       (fst (outcome (nova n) r)),
     [updateStateChanged (fst (outcome (nova n) r)); jsonUpdateComplete]).
Proof.
  intros E. unfold updateDownloadComplete. rewrite E.
  now destruct (outcome (nova n) r).
Qed.

(** C1: [UpdateState] has exactly the five states [Updating],
    [CompleteNoUpdates], [CompleteUpdates], [DownloadError] and
    [OtherError]; exactly two of them, [DownloadError] and [OtherError],
    classify failures; a run that fails ends in one of these two, and a run
    that succeeds ends in [CompleteNoUpdates] or [CompleteUpdates]. *)
Theorem five_states_two_errors :
  (forall s : UpdateState, In s all_states)
  /\ NoDup all_states
  /\ List.length all_states = 5%nat
  /\ map ordinal all_states = [0; 1; 2; 3; 4]
  /\ filter is_error all_states = [DownloadError; OtherError]
  /\ (forall s : UpdateState,
        is_error s = true <-> s = DownloadError \/ s = OtherError)
  /\ (forall (n : t) (r : Reply),
        updateState n = Updating ->
        let s := updateState (fst (updateDownloadComplete n r)) in
        (reply_failed r = true -> s = DownloadError \/ s = OtherError)
        /\ (reply_failed r = false ->
            s = CompleteNoUpdates \/ s = CompleteUpdates)).
Proof.
  split; [intros s; destruct s; cbn; tauto|].
  split.
  { repeat constructor; cbn; intuition discriminate. }
  split; [reflexivity|].
  split; [reflexivity|].
  split; [reflexivity|].
  split.
  { intros s. destruct s; cbn; split; intros E;
      try discriminate E; try tauto;
      destruct E as [E|E]; discriminate E. }
  intros n r Hu. rewrite (updateDownloadComplete_state n r Hu). cbn.
  destruct r as [|[downloaded|]]; cbn.
  - split; [tauto | discriminate].
  - split; [discriminate|]. intros _.
    destruct (catalog_eqb (merge (nova n) downloaded) (nova n)); cbn; tauto.
  - split; [tauto | discriminate].
Qed.

Lemma nova_eqb_eq (a b : Nova) : nova_eqb a b = true -> a = b.
Proof.
  unfold nova_eqb. intros E.
  apply andb_true_iff in E. destruct E as [E E3].
  apply andb_true_iff in E. destruct E as [E1 E2].
  apply String.eqb_eq in E1, E2, E3.
  destruct a, b; cbn in *. congruence.
Qed.

Lemma catalog_eqb_eq (a b : list Nova) : catalog_eqb a b = true -> a = b.
Proof.
  revert b. induction a as [|x a IH]; intros [|y b] E; cbn in E;
    try discriminate E; [reflexivity|].
  apply andb_true_iff in E. destruct E as [E1 E2].
  apply nova_eqb_eq in E1. apply IH in E2. congruence.
Qed.

(** A run that succeeds leaves the merged catalog, and reports updates
    exactly when the merge changed the catalog. *)
Lemma fetch_and_merge (n : t) (downloaded : list Nova) :
  updateState n = Updating ->
  let n' := fst (updateDownloadComplete n (Data (Some downloaded))) in
  nova n' = merge (nova n) downloaded
  /\ NovaCnt n' = Z.of_nat (List.length (nova n'))
  /\ updateState n'
     = if catalog_eqb (merge (nova n) downloaded) (nova n)
       then CompleteNoUpdates else CompleteUpdates.
Proof.
  intros E. rewrite (updateDownloadComplete_state n _ E). cbn.
  destruct (catalog_eqb (merge (nova n) downloaded) (nova n)) eqn:C; cbn.
  - apply catalog_eqb_eq in C. rewrite C. repeat split.
  - repeat split.
Qed.

Lemma updateJSON_cases (n : t) (now : Z) :
  (updateState n = Updating /\ updateJSON n now = (n, []))
  \/ (updateState n <> Updating
      /\ updateJSON n now
         = (set_updateState (set_lastUpdate n now) Updating,
            [updateStateChanged Updating])).
Proof.
  unfold updateJSON.
  destruct (updateState n) eqn:E;
    [left; split; reflexivity | right | right | right | right];
    (split; [discriminate | reflexivity]).
Qed.

Lemma to_Updating (a : UpdateState) : a <> Updating -> transition a Updating = true.
Proof. destruct a; cbn; intros E; [now elim E | | | |]; reflexivity. Qed.

Lemma from_Updating (b : UpdateState) : b <> Updating -> transition Updating b = true.
Proof. destruct b; cbn; intros E; [now elim E | | | |]; reflexivity. Qed.

(** One event keeps the state and announces nothing, or makes a transition
    of the state machine and announces the new state, once. *)
Lemma step_cases (n : t) (e : Event) :
  (updateState (fst (step n e)) = updateState n
   /\ announced (snd (step n e)) = [])
  \/ (transition (updateState n) (updateState (fst (step n e))) = true
      /\ announced (snd (step n e)) = [updateState (fst (step n e))]).
Proof.
  assert (J : forall now,
    (updateState (fst (updateJSON n now)) = updateState n
     /\ announced (snd (updateJSON n now)) = [])
    \/ (transition (updateState n) (updateState (fst (updateJSON n now))) = true
        /\ announced (snd (updateJSON n now))
           = [updateState (fst (updateJSON n now))])).
  { intros now. destruct (updateJSON_cases n now) as [[E ->]|[E ->]]; cbn.
    - left. split; reflexivity.
    - right. split; [now apply to_Updating | reflexivity]. }
  destruct e as [now|now|r|dt|b|d]; cbn [step].
  - apply J.
  - unfold checkForUpdate.
    destruct (updatesEnabled n && (getSecondsToUpdate n now <=? 0)).
    + apply J.
    + left. split; reflexivity.
  - destruct (updateState n) eqn:E.
    + rewrite (updateDownloadComplete_state n r E). cbn.
      right. split; [|reflexivity].
      apply from_Updating. apply (outcome_state (nova n) r).
    + left. unfold updateDownloadComplete. rewrite E. now split.
    + left. unfold updateDownloadComplete. rewrite E. now split.
    + left. unfold updateDownloadComplete. rewrite E. now split.
    + left. unfold updateDownloadComplete. rewrite E. now split.
  - left. split; reflexivity.
  - left. split; reflexivity.
  - left. split; reflexivity.
Qed.

Lemma run_cons (n : t) (e : Event) (es : list Event) :
  run n (e :: es)
  = (fst (run (fst (step n e)) es),
     snd (step n e) ++ snd (run (fst (step n e)) es)).
Proof.
  cbn [run]. destruct (step n e) as [n1 o1]. cbn [fst snd].
  now destruct (run n1 es).
Qed.

Lemma last_cons {A : Type} (x d : A) (l : list A) :
  last (x :: l) d = last l x.
Proof.
  revert x d. induction l as [|y l IH]; intros x d; [reflexivity|].
  change (last (x :: y :: l) d) with (last (y :: l) d).
  now rewrite !IH.
Qed.

(** Over any sequence of events the states follow the state machine, and
    the [updateStateChanged] signals are the changes of state, in order. *)
Lemma run_follows (es : list Event) :
  forall n : t,
    follows (updateState n) (states n es) = true
    /\ announced (snd (run n es)) = changes (updateState n) (states n es)
    /\ updateState (fst (run n es)) = last (states n es) (updateState n).
Proof.
  induction es as [|e es IH]; intros n.
  - repeat split.
  - rewrite run_cons. cbn [states follows changes fst snd].
    destruct (IH (fst (step n e))) as (IH1 & IH2 & IH3).
    rewrite announced_app, last_cons, IH1, IH2, IH3, andb_true_r.
    destruct (step_cases n e) as [[E A]|[T A]]; rewrite A.
    + rewrite E, state_eqb_refl. repeat split.
    + rewrite T, (transition_changes _ _ T), orb_true_r. repeat split.
Qed.

(** C5: an update run follows the state machine.  When a run starts
    [updateState] becomes [Updating]; the timer starts a run when updates
    are enabled and the next update is due; when the run finishes the state
    becomes exactly one of [CompleteNoUpdates], [CompleteUpdates],
    [DownloadError] and [OtherError], after the downloaded catalog was
    merged; [updateStateChanged] is emitted for each change of the state,
    with the new state; and no other transition occurs, whatever the
    sequence of events. *)
Theorem update_state_machine :
  (forall (n : t) (now : Z),
     updateState n <> Updating ->
     updateState (fst (updateJSON n now)) = Updating
     /\ snd (updateJSON n now) = [updateStateChanged Updating])
  /\ (forall (n : t) (now : Z),
        checkForUpdate n now
        = if updatesEnabled n
             && (lastUpdate n + updateFrequencyDays n * 3600 * 24 <=? now)
          then updateJSON n now else (n, []))
  /\ (forall (n : t) (r : Reply),
        updateState n = Updating ->
        exists s : UpdateState,
          In s [CompleteNoUpdates; CompleteUpdates; DownloadError; OtherError]
          /\ updateState (fst (updateDownloadComplete n r)) = s
          /\ announced (snd (updateDownloadComplete n r)) = [s])
  /\ (forall (n : t) (downloaded : list Nova),
        updateState n = Updating ->
        nova (fst (updateDownloadComplete n (Data (Some downloaded))))
        = merge (nova n) downloaded)
  /\ (forall (n : t) (es : list Event),
        follows (updateState n) (states n es) = true
        /\ announced (snd (run n es)) = changes (updateState n) (states n es)
        /\ updateState (fst (run n es)) = last (states n es) (updateState n)).
Proof.
  split.
  { intros n now Hn.
    destruct (updateJSON_cases n now) as [[E _]|[_ ->]]; [contradiction|].
    split; reflexivity. }
  split.
  { intros n now. unfold checkForUpdate, getSecondsToUpdate.
    replace (lastUpdate n + updateFrequencyDays n * 3600 * 24 - now <=? 0)
      with (lastUpdate n + updateFrequencyDays n * 3600 * 24 <=? now);
      [reflexivity|].
    destruct (Z.leb_spec (lastUpdate n + updateFrequencyDays n * 3600 * 24) now);
      symmetry; [apply Z.leb_le | apply Z.leb_gt]; lia. }
  split.
  { intros n r Hn. rewrite (updateDownloadComplete_state n r Hn). cbn.
    exists (fst (outcome (nova n) r)). split; [|split; reflexivity].
    destruct r as [|[downloaded|]]; cbn; [tauto| |tauto].
    destruct (catalog_eqb (merge (nova n) downloaded) (nova n)); cbn; tauto. }
  split.
  { intros n downloaded Hn. apply (fetch_and_merge n downloaded Hn). }
  intros n es. apply run_follows.
Qed.

Example sample_run :
  run Sample.novae
    [ TimerCheckForUpdate 86400;
      TimerCheckForUpdate 8640000;
      CallUpdateJSON 8640001;
      DownloadComplete NetworkError;
      CallUpdateJSON 8640100;
      DownloadComplete (Data (Some [mkNova "V1369 Cen" "Nova Cen 2013" "Nova Cen 2013"])) ]
  = (mk 3 [ mkNova "V1369 Cen" "Nova Cen 2013" "Nova Cen 2013";
            mkNova "V339 Del" "Nova Delphini 2013" "Nova du Dauphin 2013";
            mkNova "V1500 Cyg" "Nova Cygni 1975" "Nova du Cygne 1975" ]
        CompleteUpdates "http://stellarium.org/json/novae.json" true 8640100 100,
     [ updateStateChanged Updating;
       updateStateChanged DownloadError; jsonUpdateComplete;
       updateStateChanged Updating;
       updateStateChanged CompleteUpdates; jsonUpdateComplete ]).
Proof. reflexivity. Qed.

(** *** The object search interface *)

Lemma In_firstn {A : Type} (k : nat) (l : list A) (x : A) :
  In x (firstn k l) -> In x l.
Proof.
  revert l. induction k as [|k IH]; intros [|y l]; cbn; try tauto.
  intros [E|Hi]; [now left | right; now apply IH].
Qed.

Section Search.

Variable key : Nova -> string.

(** The object returned has the name searched, case apart; when nothing is
    returned no object of the catalog has it. *)
Lemma searchBy_spec (n : t) (s : string) :
  match searchBy key n s with
  | Some x => In x (nova n) /\ same_name (key x) s = true
  | None => forall x, In x (nova n) -> same_name (key x) s = false
  end.
Proof.
  unfold searchBy.
  destruct (find (fun x => same_name (key x) s) (nova n)) as [x|] eqn:E.
  - apply find_some in E. exact E.
  - intros x Hx. exact (find_none _ _ E x Hx).
Qed.

Lemma searchBy_found (n : t) (s : string) (x : Nova) :
  In x (nova n) -> same_name (key x) s = true ->
  exists y, searchBy key n s = Some y /\ same_name (key y) s = true.
Proof.
  intros Hx Hs. pose proof (searchBy_spec n s) as P.
  destruct (searchBy key n s) as [y|].
  - exists y. split; [reflexivity | apply P].
  - rewrite (P x Hx) in Hs. discriminate Hs.
Qed.

Lemma listMatching_length (n : t) (objPrefix : string) (maxNbItem : Z)
  (useStartOfWords : bool) :
  0 <= maxNbItem ->
  Z.of_nat (List.length (listMatching key n objPrefix maxNbItem useStartOfWords))
  <= maxNbItem.
Proof.
  intros Hm. unfold listMatching.
  destruct (Z.leb_spec maxNbItem 0); [cbn; lia|].
  pose proof (firstn_le_length (Z.to_nat maxNbItem)
                (filter (completes useStartOfWords objPrefix) (map key (nova n)))).
  lia.
Qed.

Lemma listMatching_length_max (n : t) (objPrefix : string) (maxNbItem : Z)
  (useStartOfWords : bool) :
  Z.of_nat (List.length (listMatching key n objPrefix maxNbItem useStartOfWords))
  <= Z.max 0 maxNbItem.
Proof.
  destruct (Z.leb_spec maxNbItem 0) as [Hm|Hm].
  - unfold listMatching. apply Z.leb_le in Hm. rewrite Hm. cbn. lia.
  - pose proof (listMatching_length n objPrefix maxNbItem useStartOfWords). lia.
Qed.

Lemma listMatching_sound (n : t) (objPrefix : string) (maxNbItem : Z)
  (useStartOfWords : bool) (name : string) :
  In name (listMatching key n objPrefix maxNbItem useStartOfWords) ->
  completes useStartOfWords objPrefix name = true
  /\ exists x, In x (nova n) /\ key x = name.
Proof.
  unfold listMatching.
  destruct (maxNbItem <=? 0); [intros []|].
  intros Hi. apply In_firstn in Hi. apply filter_In in Hi.
  destruct Hi as [Hi Hc]. split; [exact Hc|].
  apply in_map_iff in Hi. destruct Hi as (x & E & Hx). now exists x.
Qed.

Lemma listMatching_nothing (n : t) (objPrefix : string) (maxNbItem : Z)
  (useStartOfWords : bool) :
  (forall x, In x (nova n) -> completes useStartOfWords objPrefix (key x) = false) ->
  listMatching key n objPrefix maxNbItem useStartOfWords = [].
Proof.
  intros Hn.
  destruct (listMatching key n objPrefix maxNbItem useStartOfWords)
    as [|name l] eqn:E; [reflexivity|].
  destruct (listMatching_sound n objPrefix maxNbItem useStartOfWords name)
    as (Hc & x & Hx & Hk); [rewrite E; now left|].
  rewrite <- Hk, (Hn x Hx) in Hc. discriminate Hc.
Qed.

End Search.

Example search_ignores_case :
  searchByName Sample.novae "nova DELPHINI 2013"
  = Some (mkNova "V339 Del" "Nova Delphini 2013" "Nova du Dauphin 2013")
  /\ searchByNameI18n Sample.novae "nova du cygne 1975"
     = Some (mkNova "V1500 Cyg" "Nova Cygni 1975" "Nova du Cygne 1975")
  /\ searchByName Sample.novae "Nova Persei 1901" = None.
Proof. repeat split. Qed.

Example completion_examples :
  listMatchingObjects Sample.novae "nova" 5 true
  = ["Nova Centauri 2013"; "Nova Delphini 2013"; "Nova Cygni 1975"]%string
  /\ listMatchingObjects Sample.novae "nova" 2 true
     = ["Nova Centauri 2013"; "Nova Delphini 2013"]%string
  /\ listMatchingObjectsI18n Sample.novae "2013" 5 false
     = ["Nova du Centaure 2013"; "Nova du Dauphin 2013"]%string
  /\ listMatchingObjectsI18n Sample.novae "2013" 5 true = []
  /\ listMatchingObjects Sample.novae "nova" 0 true = [].
Proof. repeat split. Qed.

(** C6: for every state of the catalog, [searchByName] and
    [searchByNameI18n] return an object of the catalog that has the name
    searched (case apart) if there is one, and nothing otherwise;
    [listMatchingObjects] and [listMatchingObjectsI18n] return names of the
    catalog that complete the prefix, at most [maxNbItem] of them ([maxNbItem]
    being a number of names: none is returned when it is negative), and the
    empty list when no name completes the prefix. *)
Theorem object_search_interface :
  forall (n : t) (name objPrefix : string) (maxNbItem : Z) (useStartOfWords : bool),
    match searchByName n name with
    | Some x => In x (nova n) /\ same_name (englishName x) name = true
    | None => forall x, In x (nova n) -> same_name (englishName x) name = false
    end
    /\ match searchByNameI18n n name with
       | Some x => In x (nova n) /\ same_name (nameI18n x) name = true
       | None => forall x, In x (nova n) -> same_name (nameI18n x) name = false
       end
    /\ Z.of_nat (List.length
                   (listMatchingObjects n objPrefix maxNbItem useStartOfWords))
       <= Z.max 0 maxNbItem
    /\ Z.of_nat (List.length
                   (listMatchingObjectsI18n n objPrefix maxNbItem useStartOfWords))
       <= Z.max 0 maxNbItem
    /\ (0 <= maxNbItem ->
        Z.of_nat (List.length
                    (listMatchingObjects n objPrefix maxNbItem useStartOfWords))
        <= maxNbItem
        /\ Z.of_nat (List.length
                       (listMatchingObjectsI18n n objPrefix maxNbItem useStartOfWords))
           <= maxNbItem)
    /\ ((forall x, In x (nova n) ->
           completes useStartOfWords objPrefix (englishName x) = false) ->
        listMatchingObjects n objPrefix maxNbItem useStartOfWords = [])
    /\ ((forall x, In x (nova n) ->
           completes useStartOfWords objPrefix (nameI18n x) = false) ->
        listMatchingObjectsI18n n objPrefix maxNbItem useStartOfWords = [])
    /\ (forall s : string,
          In s (listMatchingObjects n objPrefix maxNbItem useStartOfWords) ->
          completes useStartOfWords objPrefix s = true
          /\ exists x, In x (nova n) /\ englishName x = s)
    /\ (forall s : string,
          In s (listMatchingObjectsI18n n objPrefix maxNbItem useStartOfWords) ->
          completes useStartOfWords objPrefix s = true
          /\ exists x, In x (nova n) /\ nameI18n x = s).
Proof.
  intros n name objPrefix maxNbItem useStartOfWords.
  split; [apply (searchBy_spec englishName)|].
  split; [apply (searchBy_spec nameI18n)|].
  split; [apply listMatching_length_max|].
  split; [apply listMatching_length_max|].
  split; [intros Hm; split; now apply listMatching_length|].
  split; [apply listMatching_nothing|].
  split; [apply listMatching_nothing|].
  split; intros s; apply listMatching_sound.
Qed.

Lemma object_search_interface_witness :
  Z.of_nat (List.length (listMatchingObjects Sample.novae "nova" 2 true)) <= 2
  /\ searchByName Sample.novae "Nova Persei 1901" = None.
Proof.
  pose proof (object_search_interface Sample.novae "Nova Persei 1901" "nova" 2 true)
    as (_ & _ & _ & _ & L & _).
  split; [apply L; lia | reflexivity].
Defined.

End NovaeFacts.

(** ** The build scripts *)

Module CMakeFacts.

Import CMake.
Local Open Scope string_scope.

(** What the scripts build, whatever the enclosing project has set: one
    static library, registered with the target of all static plugins. *)
Lemma one_static_library (p : Plugin) (outer : list (string * list Item)) :
  option_map summary (eval (initial outer) (script_of p))
  = Some ([library_of p], ["STATIC"],
          [[("OUTPUT_NAME", output_of p); ("COMPILE_FLAGS", "-DQT_STATICPLUGIN")]],
          [("AllStaticPlugins", library_of p)]).
Proof. destruct p; vm_compute; reflexivity. Qed.

(** The files written by hand that the libraries are built from, when the
    enclosing project sets no variable of the same names. *)
Lemma sources_of_the_libraries :
  option_map written_sources (eval (initial []) (script_of CompassMarks))
  = Some ["CompassMarks.hpp"; "CompassMarks.cpp"]
  /\ option_map written_sources (eval (initial []) (script_of MeteorShowers))
     = Some [ "MeteorShower.hpp"; "MeteorShower.cpp"; "MeteorShowers.hpp";
              "MeteorShowers.cpp"; "MeteorStream.hpp"; "MeteorStream.cpp";
              "gui/MeteorShowerDialog.hpp"; "gui/MeteorShowerDialog.cpp" ].
Proof. split; vm_compute; reflexivity. Qed.

Lemma no_operation_when_describing (s : Script) :
  forallb (is_in describing) s = true -> operations s = [].
Proof.
  unfold operations.
  induction s as [|c s IH]; cbn [forallb filter map]; [reflexivity|].
  intros E. apply andb_true_iff in E. destruct E as [Ec Es].
  assert (D : is_in defining c = false).
  { unfold is_in in *. unfold describing in Ec. cbn [mem existsb] in Ec.
    unfold defining. cbn [mem existsb].
    repeat (apply orb_true_iff in Ec; destruct Ec as [Ec|Ec];
            [apply String.eqb_eq in Ec; rewrite Ec; reflexivity|]).
    discriminate Ec. }
  rewrite D. now apply IH.
Qed.

(** C7: for MeteorShowers and for CompassMarks the repository holds a build
    script and nothing else; every command of the script describes the
    build (directories, variables, generated files, one static library and
    its properties), none defines an operation or directs the flow of
    control, so the script defines no operation; and none of the files that
    the library is built from is among the files that the repository
    holds. *)
Theorem plugins_are_build_configuration_only :
  forall p : Plugin,
    map content (files p) = [BuildScript (script_of p)]
    /\ forallb is_build_script (files p) = true
    /\ forallb (is_in describing) (script_of p) = true
    /\ existsb (is_in (defining ++ control)) (script_of p) = false
    /\ operations (script_of p) = []
    /\ (forall outer : list (string * list Item),
          exists b : Build,
            eval (initial outer) (script_of p) = Some b
            /\ map target_name (targets b) = [library_of p]
            /\ map target_kind (targets b) = ["STATIC"])
    /\ (forall (b : Build) (f : string),
          eval (initial []) (script_of p) = Some b ->
          In f (written_sources b) ->
          ~ In f (map file_name (files p))).
Proof.
  intros p.
  assert (D : forallb (is_in describing) (script_of p) = true)
    by (destruct p; vm_compute; reflexivity).
  split; [destruct p; reflexivity|].
  split; [destruct p; reflexivity|].
  split; [exact D|].
  split; [destruct p; vm_compute; reflexivity|].
  split; [now apply no_operation_when_describing|].
  split.
  - intros outer.
    pose proof (one_static_library p outer) as S.
    destruct (eval (initial outer) (script_of p)) as [b|]; [|discriminate S].
    exists b. cbn in S. injection S as N K _ _.
    repeat split; assumption.
  - intros b f E Hf Hp.
    destruct sources_of_the_libraries as [SC SM].
    assert (Hn : f = "CMakeLists.txt")
      by (destruct p; cbn in Hp; destruct Hp as [<-|[]]; reflexivity).
    subst f.
    destruct p.
    + rewrite E in SM. injection SM as SM. rewrite SM in Hf.
      repeat (destruct Hf as [Hf|Hf]; [discriminate Hf|]). exact Hf.
    + rewrite E in SC. injection SC as SC. rewrite SC in Hf.
      repeat (destruct Hf as [Hf|Hf]; [discriminate Hf|]). exact Hf.
Qed.

End CMakeFacts.

(** ** The cast of a duration to milliseconds *)

Module CastFacts.

Import Cpp.





(** A negative number and its opposite are not both negative, and the
    opposite of a zero is a zero. *)
Lemma is_negative_opp (x : float) :
  is_negative x = true -> is_negative (- x)%float = false.
Proof.
  unfold is_negative. rewrite FloatAxioms.opp_spec.
  destruct (Prim2SF x) as [s|s| |s m e]; cbn; try destruct s;
    intros E; try discriminate E; reflexivity.
Qed.

Lemma zero_not_negative (x : float) :
  (x =? 0)%float = true ->
  is_negative x = false /\ is_negative (- x)%float = false.
Proof.
  rewrite FloatAxioms.eqb_spec. unfold is_negative. rewrite FloatAxioms.opp_spec.
  change (Prim2SF 0) with (S754_zero false).
  destruct (Prim2SF x) as [s|s| |s m e]; unfold SFeqb; cbn; try destruct s;
    intros E; try discriminate E; split; reflexivity.
Qed.

End CastFacts.

(** ** Landscape: how the operations compose *)

Module LandscapeMore.

Import Cpp StelFader StelFaderFacts.

Section Compose.

Context {F Region : Type} `{FaderOps F}.

#[local] Abbreviation Landscape := (Landscape.t F Region).

Lemma update_setBrightness (l : Landscape) (deltaTime b p : float) :
  Landscape.update (Landscape.setBrightness l b p) deltaTime
  = option_map (fun l' => Landscape.setBrightness l' b p)
      (Landscape.update l deltaTime).
Proof.
  unfold Landscape.update.
  now destruct (double_to_int (deltaTime * 1000)%float).
Qed.

Lemma update_setZRotation (l : Landscape) (deltaTime d : float) :
  Landscape.update (Landscape.setZRotation l d) deltaTime
  = option_map (fun l' => Landscape.setZRotation l' d)
      (Landscape.update l deltaTime).
Proof.
  unfold Landscape.update.
  now destruct (double_to_int (deltaTime * 1000)%float).
Qed.

Lemma getOpacity_one_iff (l : Landscape) (azalt : Vec3) :
  Landscape.getOpacity l azalt = 1%float <-> is_negative (vec_at azalt 2) = true.
Proof.
  unfold Landscape.getOpacity.
  rewrite CppFacts.lit_one, CppFacts.lit_zero, CppFacts.ltb_zero_negative.
  destruct (is_negative (vec_at azalt 2)); split; intros E;
    try reflexivity; try discriminate E;
    symmetry in E; now apply CppFacts.one_is_not_zero in E.
Qed.

Lemma getOpacity_zero_iff (l : Landscape) (azalt : Vec3) :
  Landscape.getOpacity l azalt = 0%float <-> is_negative (vec_at azalt 2) = false.
Proof.
  unfold Landscape.getOpacity.
  rewrite CppFacts.lit_one, CppFacts.lit_zero, CppFacts.ltb_zero_negative.
  destruct (is_negative (vec_at azalt 2)); split; intros E;
    try reflexivity; try discriminate E;
    now apply CppFacts.one_is_not_zero in E.
Qed.

End Compose.

End LandscapeMore.

Module LandscapeComposition.

Import Cpp StelFader StelFaderFacts.

(** X1: the operations of [Landscape] that write different members can be
    called in either order: the two flags, the rotation and the brightness
    commute with each other, and [update] commutes with [setBrightness] and
    with [setZRotation] (it is defined after them exactly when it is defined
    before them). *)
Theorem writers_commute :
  forall (F Region : Type) (ops : FaderOps F) (l : Landscape.t F Region)
         (show fog : bool) (d b p deltaTime : float),
    Landscape.setFlagShow (Landscape.setFlagShowFog l fog) show
    = Landscape.setFlagShowFog (Landscape.setFlagShow l show) fog
    /\ Landscape.setZRotation (Landscape.setFlagShow l show) d
       = Landscape.setFlagShow (Landscape.setZRotation l d) show
    /\ Landscape.setZRotation (Landscape.setFlagShowFog l fog) d
       = Landscape.setFlagShowFog (Landscape.setZRotation l d) fog
    /\ Landscape.setBrightness (Landscape.setFlagShow l show) b p
       = Landscape.setFlagShow (Landscape.setBrightness l b p) show
    /\ Landscape.setBrightness (Landscape.setFlagShowFog l fog) b p
       = Landscape.setFlagShowFog (Landscape.setBrightness l b p) fog
    /\ Landscape.setBrightness (Landscape.setZRotation l d) b p
       = Landscape.setZRotation (Landscape.setBrightness l b p) d
    /\ Landscape.update (Landscape.setBrightness l b p) deltaTime
       = option_map (fun l' => Landscape.setBrightness l' b p)
           (Landscape.update l deltaTime)
    /\ Landscape.update (Landscape.setZRotation l d) deltaTime
       = option_map (fun l' => Landscape.setZRotation l' d)
           (Landscape.update l deltaTime).
Proof.
  intros F Region ops l show fog d b p deltaTime.
  repeat (split; [reflexivity|]).
  split.
  - apply LandscapeMore.update_setBrightness.
  - apply LandscapeMore.update_setZRotation.
Qed.

(** X2: [setBrightness] and [setZRotation] overwrite: after two calls the
    landscape is as after the second one alone (a rotation does not add to
    the previous one), and [angleRotateZ], the rotation of the panorama
    itself, is not touched.  A call of [setBrightness] with one argument sets
    the brightness of the night lightscape back to 0. *)
Theorem last_write_wins :
  forall (F Region : Type) (ops : FaderOps F) (l : Landscape.t F Region)
         (b1 p1 b2 p2 d1 d2 : float),
    Landscape.setBrightness (Landscape.setBrightness l b1 p1) b2 p2
    = Landscape.setBrightness l b2 p2
    /\ Landscape.setZRotation (Landscape.setZRotation l d1) d2
       = Landscape.setZRotation l d2
    /\ Landscape.angleRotateZ (Landscape.setZRotation l d1) = Landscape.angleRotateZ l
    /\ Landscape.lightScapeBrightness
         (Landscape.setBrightness_default (Landscape.setBrightness l b1 p1) b2)
       = 0%float
    /\ Landscape.landscapeBrightness
         (Landscape.setBrightness_default (Landscape.setBrightness l b1 p1) b2)
       = b2.
Proof.
  intros F Region ops l b1 p1 b2 p2 d1 d2.
  repeat split.
Qed.

(** X3: the flag of the landscape and the flag of the fog do not concern each
    other: [setFlagShowFog] changes neither [getFlagShow] nor
    [getIsFullyVisible], [setFlagShow] does not change [getFlagShowFog], and
    neither the brightness nor the rotation changes any of the three; after
    both flags were set, in either order, both read back as set. *)
Theorem flags_are_independent :
  forall (F Region : Type) (ops : FaderOps F) (laws : FaderLaws F)
         (l : Landscape.t F Region) (show fog : bool) (d b p : float),
    Landscape.getFlagShow (Landscape.setFlagShowFog l fog) = Landscape.getFlagShow l
    /\ Landscape.getIsFullyVisible (Landscape.setFlagShowFog l fog)
       = Landscape.getIsFullyVisible l
    /\ Landscape.getFlagShowFog (Landscape.setFlagShow l show)
       = Landscape.getFlagShowFog l
    /\ (let l' := Landscape.setZRotation (Landscape.setBrightness l b p) d in
        Landscape.getFlagShow l' = Landscape.getFlagShow l
        /\ Landscape.getFlagShowFog l' = Landscape.getFlagShowFog l
        /\ Landscape.getIsFullyVisible l' = Landscape.getIsFullyVisible l)
    /\ (let l' := Landscape.setFlagShowFog (Landscape.setFlagShow l show) fog in
        Landscape.getFlagShow l' = show /\ Landscape.getFlagShowFog l' = fog)
    /\ (let l' := Landscape.setFlagShow (Landscape.setFlagShowFog l fog) show in
        Landscape.getFlagShow l' = show /\ Landscape.getFlagShowFog l' = fog).
Proof.
  intros F Region ops laws l show fog d b p.
  split; [reflexivity|]. split; [reflexivity|]. split; [reflexivity|].
  split; [repeat split|].
  split; cbv zeta; unfold Landscape.getFlagShow, Landscape.getFlagShowFog;
    cbn; split; apply fader_bool_assign.
Qed.

Lemma flags_are_independent_witness :
  Landscape.getIsFullyVisible (Landscape.setFlagShowFog Sample.landscape true)
  = Landscape.getIsFullyVisible Sample.landscape
  /\ Landscape.getFlagShow
       (Landscape.setFlagShowFog (Landscape.setFlagShow Sample.landscape true) false)
     = true.
Proof.
  pose proof (flags_are_independent LinearFader (list Vec3) LinearFader_ops
                LinearFader_laws Sample.landscape true false 0%float 0%float 0%float)
    as (_ & V & _ & _ & (S & _) & _).
  split; [exact V | exact S].
Defined.



(** X5: with the default [getOpacity], a direction and a direction of the
    opposite altitude are never both opaque, and when the third component is
    a zero (of either sign) both are transparent: the mathematical horizon
    itself belongs to the sky. *)
Theorem opposite_directions_not_both_opaque :
  forall (F Region : Type) (ops : FaderOps F) (l : Landscape.t F Region)
         (x y z x' y' : float),
    ~ (Landscape.getOpacity l (mkVec3 x y z) = 1%float
       /\ Landscape.getOpacity l (mkVec3 x' y' (- z)%float) = 1%float)
    /\ ((z =? 0)%float = true ->
        Landscape.getOpacity l (mkVec3 x y z) = 0%float
        /\ Landscape.getOpacity l (mkVec3 x' y' (- z)%float) = 0%float).
Proof.
  intros F Region ops l x y z x' y'.
  split.
  - intros [A B].
    apply LandscapeMore.getOpacity_one_iff in A, B. cbn [vec_at v_2] in A, B.
    apply CastFacts.is_negative_opp in A. rewrite A in B. discriminate B.
  - intros Hz. destruct (CastFacts.zero_not_negative z Hz) as [A B].
    split; apply LandscapeMore.getOpacity_zero_iff; cbn [vec_at v_2]; assumption.
Qed.

(** X6: [hasLocation] is true exactly when the name of the planet of the
    location is not empty, whatever the other members are; a name of blanks
    counts. *)
Theorem hasLocation_iff_planet_named :
  forall (F Region : Type) (ops : FaderOps F) (l : Landscape.t F Region),
    (Landscape.hasLocation l = true <->
     planetName (Landscape.getLocation l) <> EmptyString)
    /\ (Landscape.hasLocation l = false <->
        planetName (Landscape.getLocation l) = EmptyString)
    /\ (forall (c : ascii) (s : string),
          planetName (Landscape.getLocation l) = String c s ->
          Landscape.hasLocation l = true).
Proof.
  intros F Region ops l.
  unfold Landscape.hasLocation, Landscape.getLocation.
  destruct (planetName (Landscape.location l)) as [|c s]; cbn.
  - split; [split; intros E; [discriminate E | now elim E]|].
    split; [split; reflexivity|].
    intros c s E. discriminate E.
  - split; [split; intros E; [discriminate | reflexivity]|].
    split; [split; intros E; discriminate E|].
    reflexivity.
Qed.

End LandscapeComposition.

(** ** The formats of a horizon list *)

Module HorizonListFacts.

Import HorizonList.

(** X7: the six formats of a horizon list are numbered from 0 to 5 so that
    the number is twice the index of the unit (degrees, radians, new degrees)
    plus one when the second angle is a zenith distance; a format is
    determined by its number, and by its unit and the kind of its second
    angle. *)
Theorem horizonListMode_numbering :
  forall m : horizonListMode,
    value m = 2 * unit_index (unit_of m) + (if is_zenith_distance m then 1 else 0)
    /\ 0 <= value m <= 5
    /\ is_zenith_distance m = Z.odd (value m)
    /\ (forall m' : horizonListMode, value m' = value m -> m' = m)
    /\ (forall m' : horizonListMode,
          unit_of m' = unit_of m ->
          is_zenith_distance m' = is_zenith_distance m -> m' = m).
Proof.
  intros m.
  split; [now destruct m|].
  split; [destruct m; cbn; lia|].
  split; [now destruct m|].
  split; intros m'; destruct m, m'; cbn; intros; congruence.
Qed.

End HorizonListFacts.

(** ** Novae: the settings of the updater *)

Module NovaeSettings.

Import Novae.

(** X8: the settings of the updater read back as written, for every value
    (the number of days is not checked: zero and negative numbers are
    stored as they are); writing one setting leaves the other one, the
    update state, the date of the last update and the catalog as they were,
    so the two setters commute; and [update], which the host calls for every
    frame, changes nothing. *)
Theorem settings_round_trip :
  forall (n : t) (b : bool) (days : Z) (deltaTime : float),
    getUpdatesEnabled (setUpdatesEnabled n b) = b
    /\ getUpdateFrequencyDays (setUpdateFrequencyDays n days) = days
    /\ getUpdateFrequencyDays (setUpdatesEnabled n b) = getUpdateFrequencyDays n
    /\ getUpdatesEnabled (setUpdateFrequencyDays n days) = getUpdatesEnabled n
    /\ (forall n' : t,
          n' = setUpdatesEnabled n b \/ n' = setUpdateFrequencyDays n days ->
          getUpdateState n' = getUpdateState n
          /\ getLastUpdate n' = getLastUpdate n
          /\ getCountNovae n' = getCountNovae n
          /\ nova n' = nova n)
    /\ setUpdatesEnabled (setUpdateFrequencyDays n days) b
       = setUpdateFrequencyDays (setUpdatesEnabled n b) days
    /\ update n deltaTime = n.
Proof.
  intros n b days deltaTime.
  repeat (split; [reflexivity|]).
  split; [|split; reflexivity].
  intros n' [-> | ->]; repeat split.
Qed.

End NovaeSettings.

(** ** The build scripts: what they take from the enclosing project *)

Module BuildInputsFacts.

Import CMake BuildInputs.
Local Open Scope string_scope.






(** A path after a reference to a variable that holds several elements
    continues the last one; the elements before it are arguments of their
    own. *)
Lemma expand_RefPath_list (vars : list (string * list Item)) (v rest : string)
  (l : list Item) (i : Item) (c : ascii) (r : string) :
  get vars v = (l ++ [i])%list -> rest = String c r ->
  expand vars (RefPath v rest)
  = (filter nonempty l ++ [Written (item_path i ++ rest)])%list.
Proof.
  intros G R. unfold expand, pieces. rewrite G.
  destruct (l ++ [i])%list as [|x l'] eqn:E; [now destruct l|].
  rewrite <- (NovaeFacts.last_cons x i l'), <- E, last_last, removelast_last.
  rewrite filter_app. cbn [filter nonempty item_path].
  subst rest. now destruct (item_path i).
Qed.

Example link_directories_of_a_list :
  option_map link_dirs
    (eval (initial [("BUILD_DIR", [Written "a"; Written "b"])])
       (script_of CompassMarks))
  = Some ["a"; "b/src"].
Proof. vm_compute. reflexivity. Qed.

Example sources_after_a_preset_output_variable :
  option_map (fun b => map target_sources (targets b))
    (eval (initial [("CompassMarks_RES_CXX", [Written "extra.cpp"])])
       (script_of CompassMarks))
  = Some [[ Written "CompassMarks.hpp"; Written "CompassMarks.cpp";
            Written "extra.cpp"; Generated "../CompassMarks.qrc" ]].
Proof. vm_compute. reflexivity. Qed.




(** The output variable of a Qt macro is one of the variables that matter:
    two projects that differ in it alone get different sources. *)
Example output_variable_matters :
  option_map observable
    (eval (initial [("CompassMarks_RES_CXX", [Written "extra.cpp"])])
       (script_of CompassMarks))
  <> option_map observable (eval (initial []) (script_of CompassMarks)).
Proof. vm_compute. intros E. discriminate E. Qed.

End BuildInputsFacts.
(** ** Which definition a call reaches *)

Module HierarchyMore.

Import Hierarchy.

(** X11: for each of the four renderers, a call of a member function whose
    body is in [Landscape] and which is not virtual reaches that body; a call
    of [load], [draw] or [getOpacity] reaches the declaration of the renderer
    itself, so that the default [getOpacity] of [Landscape] is reached from
    none of them; and [create] exists for the fisheye and the spherical
    renderer only. *)
Theorem member_resolution :
  forall r : Renderer,
    (forall m : Member,
       declares CLandscape m = Some Inline ->
       lookup (class_of r) m = Some (CLandscape, Inline))
    /\ (forall m : Member,
          In m [m_load; m_draw; m_getOpacity] ->
          lookup (class_of r) m = Some (class_of r, Virtual))
    /\ (forall (m : Member) (d : Decl),
          lookup (class_of r) m = Some (CLandscape, d) -> d = Inline)
    /\ lookup (class_of r) m_create
       = match r with
         | Fisheye | Spherical => Some (class_of r, Declared)
         | Polygonal | TiledOldStyle => None
         end.
Proof.
  intros r.
  split.
  { intros m Hm. destruct r, m; cbn in Hm; try discriminate Hm; reflexivity. }
  split.
  { intros m Hm. cbn in Hm.
    destruct Hm as [<-|[<-|[<-|[]]]]; destruct r; reflexivity. }
  split.
  { intros m d Hl. destruct r, m; cbn in Hl; congruence. }
  now destruct r.
Qed.

End HierarchyMore.

(** ** A negative duration *)

Module Rewind.

Import Cpp StelFader.

Lemma binary_round_aux_opp (prec emax : Z) (s : bool) (m e : Z) (l : location) :
  binary_round_aux prec emax (negb s) m e l
  = SFopp (binary_round_aux prec emax s m e l).
Proof.
  unfold binary_round_aux.
  destruct (shr_fexp prec emax m e l) as [mrs' e'].
  destruct (shr_fexp prec emax
              (round_nearest_even (shr_m mrs') (loc_of_shr_record mrs')) e' loc_Exact)
    as [mrs'' e''].
  destruct (shr_m mrs'') as [|p|p]; [reflexivity| |reflexivity].
  now destruct (e'' <=? emax - prec).
Qed.

Lemma SFmul_opp_l (prec emax : Z) (x y : spec_float) :
  SFmul prec emax (SFopp x) y = SFopp (SFmul prec emax x y).
Proof.
  destruct x as [sx|sx| |sx mx ex], y as [sy|sy| |sy my ey]; cbn [SFopp SFmul];
    rewrite <- ?Bool.negb_xorb_l; try reflexivity.
  apply binary_round_aux_opp.
Qed.

(** The product with the opposite duration is the opposite product. *)
Lemma mul_opp_l (x y : float) : (- x * y)%float = (- (x * y))%float.
Proof.
  apply FloatAxioms.Prim2SF_inj.
  rewrite FloatAxioms.mul_spec, !FloatAxioms.opp_spec, FloatAxioms.mul_spec.
  apply SFmul_opp_l.
Qed.

(** Rounding toward zero is symmetric. *)
Lemma trunc_opp (x : float) : trunc (- x)%float = option_map Z.opp (trunc x).
Proof.
  unfold trunc. rewrite FloatAxioms.opp_spec.
  destruct (Prim2SF x) as [s|s| |s m e]; cbn [SFopp option_map]; try reflexivity.
  destruct s; cbn [negb]; [now rewrite Z.opp_involutive | reflexivity].
Qed.

Lemma double_to_int_opp (x : float) (z : Z) :
  double_to_int x = Some z -> z <> INT_MIN -> double_to_int (- x)%float = Some (- z).
Proof.
  unfold double_to_int. rewrite trunc_opp.
  destruct (trunc x) as [t|]; [|discriminate]. cbn [option_map].
  destruct ((INT_MIN <=? t) && (t <=? INT_MAX)) eqn:E; [|discriminate].
  intros [= <-] Hz.
  apply andb_true_iff in E. destruct E as [E1 E2].
  apply Z.leb_le in E1. apply Z.leb_le in E2.
  assert (R : (INT_MIN <=? - t) && (- t <=? INT_MAX) = true).
  { apply andb_true_iff. split; apply Z.leb_le; unfold INT_MIN, INT_MAX in *; lia. }
  now rewrite R.
Qed.

(** X12: the cast rounds toward zero, so a negative duration rewinds by as
    many milliseconds as the opposite duration advances: when
    [update(deltaTime)] passes [ticks] milliseconds to the faders (and
    [ticks] is not the least [int]), [update(-deltaTime)] is defined and
    passes [-ticks] to both. *)
Theorem update_rewinds :
  forall (F Region : Type) (ops : FaderOps F) (l : Landscape.t F Region)
         (deltaTime : float) (ticks : Z),
    double_to_int (deltaTime * 1000)%float = Some ticks ->
    ticks <> INT_MIN ->
    exists l',
      Landscape.update l (- deltaTime)%float = Some l'
      /\ Landscape.landFader l' = fader_update (Landscape.landFader l) (- ticks)
      /\ Landscape.fogFader l' = fader_update (Landscape.fogFader l) (- ticks).
Proof.
  intros F Region ops l deltaTime ticks Ht Hm.
  apply LandscapeFacts.update_defined.
  rewrite mul_opp_l. now apply double_to_int_opp.
Qed.

Lemma update_rewinds_witness :
  exists l',
    Landscape.update Sample.landscape (- 0x1.0ff972474538fp-6)%float = Some l'
    /\ Landscape.landFader l'
       = fader_update (Landscape.landFader Sample.landscape) (- 16)
    /\ Landscape.fogFader l'
       = fader_update (Landscape.fogFader Sample.landscape) (- 16).
Proof.
  apply (update_rewinds LinearFader (list Vec3) LinearFader_ops Sample.landscape
           0x1.0ff972474538fp-6%float 16 eq_refl).
  unfold INT_MIN. lia.
Defined.

End Rewind.
